(** * py_workflow: the client API layer, the Dashboard and Workflows pages,
    and the execution engine contract

  The development follows the repository layout:
  - [Js]        values exchanged with the backend (JSON) and promises;
  - [Axios]     the part of the HTTP client that decides the request URL;
  - [Api]       [client/src/services/api.js];
  - [Dashboard] [client/src/pages/Dashboard.jsx];
  - [Workflows] [client/src/pages/Workflows.jsx];
  - [Engine]    the execution engine, checkpoint store and interaction
                broker, whose Python sources are not part of the client
                tree and are modelled from the design document. *)

From Stdlib Require Import ZArith Ascii String.
From stdpp Require Import gmap strings list fin_maps.

Open Scope string_scope.
Open Scope nat_scope.
Open Scope list_scope.
Open Scope stdpp_scope.

(* ===================================================================== *)
(** ** JavaScript values and promises *)
(* ===================================================================== *)

Module Js.

(** JSON values, as they travel in request bodies and query parameters. *)
#[warnings="-register-all"]
Inductive json : Type :=
| JNull
| JBool (b : bool)
| JNum (n : Z)
| JStr (s : string)
| JArr (items : list json)
| JObj (fields : list (string * json)).

(** A settled promise: [await] either yields the value or throws.  For a
    request the value is the body of the response, [response.data]. *)
Inductive promise (A : Type) : Type :=
| Resolved (value : A)
| Rejected (reason : string).
Arguments Resolved {A} value.
Arguments Rejected {A} reason.

(** Property lookup in an object literal: the last binding of a key wins. *)
Fixpoint prop (key : string) (fields : list (string * json)) : option json :=
  match fields with
  | [] => None
  | (k, v) :: rest =>
      match prop key rest with
      | Some v' => Some v'
      | None => if decide (k = key) then Some v else None
      end
  end.

(** [array.slice(start, end)] for [0 <= start <= end]: the elements from
    [start] up to, not including, [end], clipped to the array. *)
Definition slice {A} (l : list A) (start stop : nat) : list A :=
  take (stop - start) (drop start l).

(** [string.slice(-n)]: the last [n] characters, or the whole string. *)
Definition str_slice_last (s : string) (n : nat) : string :=
  String.substring (String.length s - n) n s.

(** [x || 0] on an optional number: [undefined] and [0] are falsy. *)
Definition or_zero (x : option nat) : nat :=
  match x with
  | Some (S n) => S n
  | _ => 0
  end.

(** [Promise.all] of five settled promises: the five values, or the
    rejection of the first one that failed. *)
Definition Promise_all5 {A B C D E} (a : promise A) (b : promise B)
    (c : promise C) (d : promise D) (e : promise E)
    : promise (A * B * C * D * E) :=
  match a, b, c, d, e with
  | Resolved a', Resolved b', Resolved c', Resolved d', Resolved e' =>
      Resolved (a', b', c', d', e')
  | Rejected r, _, _, _, _ => Rejected r
  | _, Rejected r, _, _, _ => Rejected r
  | _, _, Rejected r, _, _ => Rejected r
  | _, _, _, Rejected r, _ => Rejected r
  | _, _, _, _, Rejected r => Rejected r
  end.

End Js.

(* ===================================================================== *)
(** ** Axios: how an instance with a [baseURL] builds the request path *)
(* ===================================================================== *)

(** [axios] is the HTTP client library [api.js] imports.  This module holds
    what the pages depend on: the request an instance method builds, the
    library's helpers [isAbsoluteURL], [combineURLs] and [buildFullPath]
    that put the [baseURL] in front of a relative path, and the bookkeeping
    of the requests issued. *)

Module Axios.
Import Js.

Inductive http_method := GET | POST | PUT | DELETE.

#[global] Instance http_method_eq_dec : EqDecision http_method.
Proof. solve_decision. Defined.

(** What one call of [instance.get/post/put/delete] hands to the network. *)
Record request := {
  req_method : http_method;
  req_url : string;                       (* first argument, as written *)
  req_data : option json;                 (* request body, if any *)
  req_params : list (string * json)       (* [config.params] *)
}.

Record instance := {
  baseURL : string;
  timeout : Z;
  headers : list (string * string)
}.

Definition is_alpha (c : ascii) : bool :=
  let n := nat_of_ascii c in
  (((65 <=? n) && (n <=? 90)) || ((97 <=? n) && (n <=? 122)))%nat.

Definition is_scheme_char (c : ascii) : bool :=
  let n := nat_of_ascii c in
  is_alpha c
  || (((48 <=? n) && (n <=? 57)) || (n =? 43) || (n =? 45) || (n =? 46))%nat.

Fixpoint after_scheme (s : string) : string :=
  match s with
  | String c rest => if is_scheme_char c then after_scheme rest else s
  | EmptyString => s
  end.

(** [isAbsoluteURL]: the pattern [^([a-z][a-z\d+\-.]*:)?\/\/] (case
    insensitive): an optional scheme, then two slashes. *)
Definition isAbsoluteURL (url : string) : bool :=
  String.prefix "//" url
  || match url with
     | String c rest => is_alpha c && String.prefix "://" (after_scheme rest)
     | EmptyString => false
     end.

Fixpoint strip_leading_slashes (s : string) : string :=
  match s with
  | String "/" rest => strip_leading_slashes rest
  | _ => s
  end.

(** [s.replace(/\/?\/$/, '')]: one trailing slash, or two, is removed. *)
Definition strip_trailing_slash (s : string) : string :=
  match String.rev s with
  | String "/" (String "/" rest) => String.rev rest
  | String "/" rest => String.rev rest
  | _ => s
  end.

Definition combineURLs (base relative : string) : string :=
  match relative with
  | EmptyString => base
  | _ => strip_trailing_slash base +:+ "/" +:+ strip_leading_slashes relative
  end.

Definition buildFullPath (base requested : string) : string :=
  match base with
  | EmptyString => requested
  | _ => if isAbsoluteURL requested then requested
         else combineURLs base requested
  end.

(** The path a request of this instance is sent to. *)
Definition full_path (i : instance) (r : request) : string :=
  buildFullPath (baseURL i) (req_url r).

(** The wire: every request the client has issued so far, oldest first. *)
Definition wire := list request.

(** Client code that talks to the network: it may issue requests. *)
Definition net (A : Type) : Type := wire → A * wire.

Definition ret {A} (a : A) : net A := λ w, (a, w).
Definition bind {A B} (m : net A) (k : A → net B) : net B :=
  λ w, let '(a, w') := m w in k a w'.

(** The response interceptor of the instance: [(response) => response] on
    success; on failure it logs and returns [Promise.reject(error)]. *)
Definition response_interceptor {A} (p : promise A) : promise A :=
  match p with
  | Resolved response => Resolved response
  | Rejected error => Rejected error
  end.

(** [instance.request(config)]: the request goes on the wire once and the
    backend's answer comes back through the interceptor. *)
Definition dispatch {A} (answer : request → promise A) (r : request)
    : net (promise A) :=
  λ w, (response_interceptor (answer r), w ++ [r]).

(** The request each instance method builds from its arguments. *)
Definition get (url : string) (params : list (string * json)) : request :=
  {| req_method := GET; req_url := url; req_data := None; req_params := params |}.
Definition post (url : string) (data : option json)
    (params : list (string * json)) : request :=
  {| req_method := POST; req_url := url; req_data := data; req_params := params |}.
Definition put (url : string) (data : option json) : request :=
  {| req_method := PUT; req_url := url; req_data := data; req_params := [] |}.
Definition delete (url : string) : request :=
  {| req_method := DELETE; req_url := url; req_data := None; req_params := [] |}.

End Axios.

Notation "'let!' x := m 'in' k" := (Axios.bind m (λ x, k))
  (at level 10, x name, m at level 100, k at level 200, only parsing).

(* ===================================================================== *)
(** ** Response bodies the pages read *)
(* ===================================================================== *)

Module Payload.

Record workflow := {
  wf_id : string;
  wf_name : string;
  wf_description : option string;
  wf_status : string;
  wf_version : string;
  wf_nodes : option nat;                 (* [workflow.nodes?.length] *)
  wf_updated_at : string
}.

Record execution := {
  ex_id : string;
  ex_workflow_id : string;
  ex_status : string
}.

Record agent := { ag_id : string; ag_name : string }.

Record tools_info := { tools_count : option nat }.

Record health_info := {
  health_status : string;
  health_database : option string;
  health_default_llm : option string;
  health_tracing : bool
}.

#[global] Instance workflow_eq_dec : EqDecision workflow.
Proof. solve_decision. Defined.
#[global] Instance execution_eq_dec : EqDecision execution.
Proof. solve_decision. Defined.

End Payload.

(* ===================================================================== *)
(** ** client/src/services/api.js *)
(* ===================================================================== *)

Module Api.
Import Js Axios Payload.

(** [axios.create({ baseURL: '/api/v1', timeout: 30000, headers: ... })] *)
Definition api : instance :=
  {| baseURL := "/api/v1";
     timeout := 30000;
     headers := [("Content-Type", "application/json")] |}.

(** The backend as the client meets it: how each request is answered.  The
    list and health endpoints are given the shape of the body the pages
    read from [response.data]; every other answer is left as JSON. *)
Record backend := {
  answer : request → promise json;
  answer_workflows : request → promise (list workflow);
  answer_executions : request → promise (list execution);
  answer_agents : request → promise (list agent);
  answer_tools : request → promise tools_info;
  answer_health : request → promise health_info
}.

Module healthApi.
Definition checkHealth (srv : backend) : net (promise health_info) :=
  dispatch (answer_health srv) (get "/health/" []).
Definition checkDetailedHealth (srv : backend) : net (promise health_info) :=
  dispatch (answer_health srv) (get "/health/detailed" []).
End healthApi.

Module workflowsApi.
Definition create (srv : backend) (data : json) :=
  dispatch (answer srv) (post "/workflows/" (Some data) []).
Definition getAll (srv : backend) (params : list (string * json)) :=
  dispatch (answer_workflows srv) (get "/workflows/" params).
Definition getById (srv : backend) (id : string) :=
  dispatch (answer srv) (get ("/workflows/" +:+ id) []).
Definition update (srv : backend) (id : string) (data : json) :=
  dispatch (answer srv) (put ("/workflows/" +:+ id) (Some data)).
Definition delete (srv : backend) (id : string) :=
  dispatch (answer srv) (Axios.delete ("/workflows/" +:+ id)).
Definition duplicate (srv : backend) (id newName : string) :=
  dispatch (answer srv)
    (post ("/workflows/" +:+ id +:+ "/duplicate") (Some JNull)
          [("new_name", JStr newName)]).
Definition validate (srv : backend) (id : string) :=
  dispatch (answer srv) (post ("/workflows/" +:+ id +:+ "/validate") None []).
Definition test (srv : backend) (id : string) (testInput : json) :=
  dispatch (answer srv)
    (post ("/workflows/" +:+ id +:+ "/test") (Some testInput) []).
End workflowsApi.

Module executionsApi.
Definition create (srv : backend) (data : json) :=
  dispatch (answer srv) (post "/executions/" (Some data) []).
Definition start (srv : backend) (id : string) :=
  dispatch (answer srv) (post ("/executions/" +:+ id +:+ "/start") None []).
Definition getAll (srv : backend) (params : list (string * json)) :=
  dispatch (answer_executions srv) (get "/executions/" params).
Definition getById (srv : backend) (id : string) :=
  dispatch (answer srv) (get ("/executions/" +:+ id) []).
Definition cancel (srv : backend) (id : string) :=
  dispatch (answer srv) (post ("/executions/" +:+ id +:+ "/cancel") None []).
Definition getInteractions (srv : backend) (id : string) :=
  dispatch (answer srv) (get ("/executions/" +:+ id +:+ "/interactions") []).
Definition respondToInteraction (srv : backend)
    (executionId interactionId : string) (response : json) :=
  dispatch (answer srv)
    (post ("/executions/" +:+ executionId +:+ "/interactions/"
             +:+ interactionId +:+ "/respond")
          (Some (JObj [("response", response)])) []).
Definition getLogs (srv : backend) (id : string) :=
  dispatch (answer srv) (get ("/executions/" +:+ id +:+ "/logs") []).
Definition getStatus (srv : backend) (id : string) :=
  dispatch (answer srv) (get ("/executions/" +:+ id +:+ "/status") []).
End executionsApi.

Module agentsApi.
Definition create (srv : backend) (data : json) :=
  dispatch (answer srv) (post "/agents/" (Some data) []).
Definition getAll (srv : backend) (params : list (string * json)) :=
  dispatch (answer_agents srv) (get "/agents/" params).
Definition getById (srv : backend) (id : string) :=
  dispatch (answer srv) (get ("/agents/" +:+ id) []).
Definition update (srv : backend) (id : string) (data : json) :=
  dispatch (answer srv) (put ("/agents/" +:+ id) (Some data)).
Definition delete (srv : backend) (id : string) :=
  dispatch (answer srv) (Axios.delete ("/agents/" +:+ id)).
Definition test (srv : backend) (id : string) (testInput : json) :=
  dispatch (answer srv)
    (post ("/agents/" +:+ id +:+ "/test") (Some JNull)
          [("test_input", testInput)]).
Definition getTypes (srv : backend) :=
  dispatch (answer srv) (get "/agents/types/" []).
End agentsApi.

Module toolsApi.
Definition getAll (srv : backend) :=
  dispatch (answer_tools srv) (get "/tools/" []).
Definition getById (srv : backend) (name : string) :=
  dispatch (answer srv) (get ("/tools/" +:+ name) []).
Definition getProviders (srv : backend) :=
  dispatch (answer srv) (get "/tools/providers/" []).
Definition getProviderModels (srv : backend) (provider : string) :=
  dispatch (answer srv) (get ("/tools/providers/" +:+ provider +:+ "/models") []).
End toolsApi.

(** *** The [executionsApi] object as a table *)

(** Its keys, in source order. *)
Inductive executionsApi_key :=
| K_create | K_start | K_getAll | K_getById | K_cancel | K_getInteractions
| K_respondToInteraction | K_getLogs | K_getStatus.

#[global] Instance executionsApi_key_eq_dec : EqDecision executionsApi_key.
Proof. solve_decision. Defined.

Definition executionsApi_keys : list executionsApi_key :=
  [K_create; K_start; K_getAll; K_getById; K_cancel; K_getInteractions;
   K_respondToInteraction; K_getLogs; K_getStatus].

(** Arguments of a call; each function reads the ones it declares. *)
Record call_args := {
  arg_id : string;               (* [id] / [executionId] *)
  arg_interaction : string;      (* [interactionId] *)
  arg_data : json;               (* [data] / [response] *)
  arg_params : list (string * json)
}.

Definition call (srv : backend) (k : executionsApi_key) (a : call_args)
    : net unit :=
  match k with
  | K_create => let! _r := executionsApi.create srv (arg_data a) in ret ()
  | K_start => let! _r := executionsApi.start srv (arg_id a) in ret ()
  | K_getAll => let! _r := executionsApi.getAll srv (arg_params a) in ret ()
  | K_getById => let! _r := executionsApi.getById srv (arg_id a) in ret ()
  | K_cancel => let! _r := executionsApi.cancel srv (arg_id a) in ret ()
  | K_getInteractions =>
      let! _r := executionsApi.getInteractions srv (arg_id a) in ret ()
  | K_respondToInteraction =>
      let! _r := executionsApi.respondToInteraction srv (arg_id a)
            (arg_interaction a) (arg_data a) in ret ()
  | K_getLogs => let! _r := executionsApi.getLogs srv (arg_id a) in ret ()
  | K_getStatus => let! _r := executionsApi.getStatus srv (arg_id a) in ret ()
  end.

(** The requests a computation issues when started on an idle wire. *)
Definition issued {A} (m : net A) : list request := (m []).2.

End Api.

(* ===================================================================== *)
(** ** client/src/pages/Dashboard.jsx *)
(* ===================================================================== *)

Module Dashboard.
Import Js Axios Payload Api.

Record stats := {
  workflows : nat;
  executions : nat;
  agents : nat;
  tools : nat
}.

(** The four [useState] cells of the component. *)
Record state := {
  st_stats : stats;
  recentExecutions : list execution;
  healthStatus : option health_info;
  loading : bool
}.

Definition initial : state :=
  {| st_stats := {| workflows := 0; executions := 0; agents := 0; tools := 0 |};
     recentExecutions := [];
     healthStatus := None;
     loading := true |}.

Definition setStats (v : stats) (st : state) : state :=
  {| st_stats := v; recentExecutions := recentExecutions st;
     healthStatus := healthStatus st; loading := loading st |}.
Definition setRecentExecutions (v : list execution) (st : state) : state :=
  {| st_stats := st_stats st; recentExecutions := v;
     healthStatus := healthStatus st; loading := loading st |}.
Definition setHealthStatus (v : option health_info) (st : state) : state :=
  {| st_stats := st_stats st; recentExecutions := recentExecutions st;
     healthStatus := v; loading := loading st |}.
Definition setLoading (v : bool) (st : state) : state :=
  {| st_stats := st_stats st; recentExecutions := recentExecutions st;
     healthStatus := healthStatus st; loading := v |}.

(** The five requests of [fetchDashboardData], started in source order and
    awaited together. *)
Definition fetch_all (srv : backend) :=
  let! workflowsRes := workflowsApi.getAll srv [("limit", JNum 1)] in
  let! executionsRes := executionsApi.getAll srv [("limit", JNum 10)] in
  let! agentsRes := agentsApi.getAll srv [("limit", JNum 1)] in
  let! toolsRes := toolsApi.getAll srv in
  let! healthRes := healthApi.checkDetailedHealth srv in
  ret (Promise_all5 workflowsRes executionsRes agentsRes toolsRes healthRes).

Definition fetchDashboardData (srv : backend) (st : state) : net state :=
  let st := setLoading true st in
  let! settled := fetch_all srv in
  let st :=
    match settled with
    | Resolved (workflowsRes, executionsRes, agentsRes, toolsRes, healthRes) =>
        let st := setStats {| workflows := length workflowsRes;
                              executions := length executionsRes;
                              agents := length agentsRes;
                              tools := or_zero (tools_count toolsRes) |} st in
        let st := setRecentExecutions (slice executionsRes 0 5) st in
        setHealthStatus (Some healthRes) st
    | Rejected error => st            (* catch: console.error only *)
    end in
  ret (setLoading false st).          (* finally *)

(** A rendered icon: the component and its [className]. *)
Record element := { component : string; className : string }.

Definition getStatusIcon (status : string) : element :=
  if decide (status = "completed") then
    {| component := "CheckCircleIcon"; className := "h-5 w-5 text-green-500" |}
  else if decide (status = "failed") then
    {| component := "ExclamationTriangleIcon";
       className := "h-5 w-5 text-red-500" |}
  else if decide (status = "running") then
    {| component := "ClockIcon"; className := "h-5 w-5 text-blue-500" |}
  else
    {| component := "ClockIcon"; className := "h-5 w-5 text-gray-500" |}.

Definition baseClasses : string :=
  "inline-flex items-center px-2.5 py-0.5 rounded-full text-xs font-medium".

Definition getStatusBadge (status : string) : string :=
  if decide (status = "completed") then baseClasses +:+ " status-completed"
  else if decide (status = "failed") then baseClasses +:+ " status-failed"
  else if decide (status = "running") then baseClasses +:+ " status-running"
  else if decide (status = "paused") then baseClasses +:+ " status-paused"
  else baseClasses +:+ " status-draft".

(** One [<li>] of the Recent Executions list. *)
Record row := {
  row_key : string;
  row_icon : element;
  row_title : string;
  row_workflow : string;
  row_badge : string;
  row_status : string
}.

Definition render_row (execution : Payload.execution) : row :=
  {| row_key := ex_id execution;
     row_icon := getStatusIcon (ex_status execution);
     row_title := "Execution " +:+ str_slice_last (ex_id execution) 8;
     row_workflow := "Workflow: " +:+ ex_workflow_id execution;
     row_badge := getStatusBadge (ex_status execution);
     row_status := ex_status execution |}.

Inductive recent_view :=
| RecentList (rows : list row)
| NoExecutionsYet.

Definition render_recent (st : state) : recent_view :=
  if decide (0 < length (recentExecutions st))
  then RecentList (render_row <$> recentExecutions st)
  else NoExecutionsYet.

(** What the component shows: the skeleton while loading, else the four
    counters of the stats grid and the Recent Executions card. *)
Inductive view :=
| Skeleton
| Page (health : option health_info) (shown : stats) (recent : recent_view).

Definition render (st : state) : view :=
  if loading st then Skeleton
  else Page (healthStatus st) (st_stats st) (render_recent st).

(** The status values an execution can be surfaced with. *)
Definition execution_statuses : list string :=
  ["pending"; "running"; "paused"; "completed"; "failed"; "cancelled"].

(** A backend honours [limit] on a list endpoint when a request carrying
    [limit = n] is never answered with more than [n] items. *)
Definition honours_limit {A} (ans : request → promise (list A)) : Prop :=
  ∀ (r : request) (n : nat) (items : list A),
    prop "limit" (req_params r) = Some (JNum (Z.of_nat n)) →
    ans r = Resolved items →
    length items ≤ n.

(** The five requests of one run, as values. *)
Definition workflows_request : request := get "/workflows/" [("limit", JNum 1)].
Definition executions_request : request := get "/executions/" [("limit", JNum 10)].
Definition agents_request : request := get "/agents/" [("limit", JNum 1)].
Definition tools_request : request := get "/tools/" [].
Definition health_request : request := get "/health/detailed" [].

(** The states the component can be in: it mounts in [initial], and every
    run of [fetchDashboardData] (on whatever the wire holds) leads from one
    state to the next. *)
Inductive reachable (srv : backend) : state → Prop :=
| reachable_initial : reachable srv initial
| reachable_fetch (st : state) (w : wire) :
    reachable srv st → reachable srv (fetchDashboardData srv st w).1.

End Dashboard.

(* ===================================================================== *)
(** ** client/src/pages/Workflows.jsx *)
(* ===================================================================== *)

Module Workflows.
Import Js Axios Payload Api.

Record state := {
  workflows : list workflow;
  loading : bool;
  error : option string
}.

Definition initial : state :=
  {| workflows := []; loading := true; error := None |}.

Definition setWorkflows (v : list workflow) (st : state) : state :=
  {| workflows := v; loading := loading st; error := error st |}.
Definition setLoading (v : bool) (st : state) : state :=
  {| workflows := workflows st; loading := v; error := error st |}.
Definition setError (v : option string) (st : state) : state :=
  {| workflows := workflows st; loading := loading st; error := v |}.

Definition fetchWorkflows (srv : backend) (st : state) : net state :=
  let st := setLoading true st in
  let! response := workflowsApi.getAll srv [] in
  let st :=
    match response with
    | Resolved data => setWorkflows data st
    | Rejected err => setError (Some "Failed to fetch workflows") st
    end in
  ret (setLoading false st).

(** [handleDelete(id)] (l.28-38).  The function is declared in the body of
    the component, so every render makes its own, and the [workflows] it
    reads (l.32) is the list of that render: [rendered] is the state the
    render was made from.  A call runs up to the [await]: [confirmed] is
    the user's answer to [window.confirm], and the request goes out.  What
    stands after the [await] runs when the answer is there, on the state
    the page has by then; it is returned as a function from that state to
    the new state and the [alert]s shown.  [setWorkflows] is given a value,
    not an updater, so the list of the render replaces whatever the state
    holds. *)
Definition handleDelete (srv : backend) (rendered : state) (confirmed : bool)
    (id : string) : net (state → state * list string) :=
  if confirmed then
    let! deleted := workflowsApi.delete srv id in
    ret (λ st,
      match deleted with
      | Resolved _ =>
          (setWorkflows (filter (λ w, wf_id w ≠ id) (workflows rendered)) st,
           [])
      | Rejected err => (st, ["Failed to delete workflow"])
      end)
  else ret (λ st, (st, [])).

(** A Delete click that is answered before anything else happens on the
    page: the state is still the one the clicked render was made from. *)
Definition delete_and_settle (srv : backend) (confirmed : bool) (id : string)
    (st : state) : net (state * list string) :=
  let! settle := handleDelete srv st confirmed id in
  ret (settle st).

(** Two confirmed Delete clicks on one render, the second before the first
    request is answered; the answers arrive in the order of the clicks.
    Returned are the state after the first answer and after the second. *)
Definition delete_overlapping (srv : backend) (id1 id2 : string) (st : state)
    : net (state * state) :=
  let! settle1 := handleDelete srv st true id1 in
  let! settle2 := handleDelete srv st true id2 in
  let st1 := (settle1 st).1 in
  ret (st1, (settle2 st1).1).

(** The request [handleDelete(id)] sends, as a value. *)
Definition delete_request (id : string) : request :=
  Axios.delete ("/workflows/" +:+ id).

Definition baseClasses : string :=
  "inline-flex items-center px-2.5 py-0.5 rounded-full text-xs font-medium".

Definition getStatusBadge (status : string) : string :=
  if decide (status = "active") then baseClasses +:+ " bg-green-100 text-green-800"
  else if decide (status = "draft") then baseClasses +:+ " bg-gray-100 text-gray-800"
  else if decide (status = "paused") then
    baseClasses +:+ " bg-yellow-100 text-yellow-800"
  else if decide (status = "archived") then
    baseClasses +:+ " bg-red-100 text-red-800"
  else baseClasses +:+ " bg-gray-100 text-gray-800".

(** The lifecycle status values of a workflow definition. *)
Definition lifecycle_statuses : list string :=
  ["draft"; "active"; "paused"; "archived"].

End Workflows.

(* ===================================================================== *)
(** ** A small backend to run the pages against *)
(* ===================================================================== *)

Module Fixtures.
Import Js Axios Payload Api.

Definition limit_of (r : request) : nat :=
  match prop "limit" (req_params r) with
  | Some (JNum n) => Z.to_nat n
  | _ => 100
  end.

Definition mk_workflow (id name status : string) : workflow :=
  {| wf_id := id; wf_name := name; wf_description := None;
     wf_status := status; wf_version := "1.0.0"; wf_nodes := Some 3;
     wf_updated_at := "2024-01-01T00:00:00Z" |}.

Definition mk_execution (id status : string) : execution :=
  {| ex_id := id; ex_workflow_id := "wf-1"; ex_status := status |}.

Definition stored_workflows : list workflow :=
  [mk_workflow "wf-1" "triage" "active"; mk_workflow "wf-2" "review" "draft";
   mk_workflow "wf-3" "intake" "paused"].

Definition stored_executions : list execution :=
  [mk_execution "ex-1" "completed"; mk_execution "ex-2" "failed";
   mk_execution "ex-3" "running"; mk_execution "ex-4" "paused";
   mk_execution "ex-5" "pending"; mk_execution "ex-6" "cancelled";
   mk_execution "ex-7" "completed"].

Definition stored_agents : list agent :=
  [{| ag_id := "ag-1"; ag_name := "classifier" |};
   {| ag_id := "ag-2"; ag_name := "writer" |}].

(** A backend that cuts every list at the requested [limit].  The health
    endpoint answers when [health_up], and fails otherwise; deleting the
    workflow [locked] fails, any other delete succeeds. *)
Definition backend_with (health_up : bool) (locked : string) : backend :=
  {| answer := λ r,
       if decide (req_method r = DELETE ∧ req_url r = "/workflows/" +:+ locked)
       then Rejected "Request failed with status code 409"
       else Resolved JNull;
     answer_workflows := λ r, Resolved (take (limit_of r) stored_workflows);
     answer_executions := λ r, Resolved (take (limit_of r) stored_executions);
     answer_agents := λ r, Resolved (take (limit_of r) stored_agents);
     answer_tools := λ r, Resolved {| tools_count := Some 4 |};
     answer_health := λ r,
       if health_up
       then Resolved {| health_status := "healthy";
                        health_database := Some "connected";
                        health_default_llm := Some "ollama";
                        health_tracing := false |}
       else Rejected "Request failed with status code 404" |}.

End Fixtures.

(* ===================================================================== *)
(** ** The other API objects as tables, and routes *)
(* ===================================================================== *)

Module ApiCalls.
Import Js Axios Payload Api.

(** The keys of [healthApi], [workflowsApi], [agentsApi] and [toolsApi], in
    source order. *)
Inductive healthApi_key := H_checkHealth | H_checkDetailedHealth.

Inductive workflowsApi_key :=
| W_create | W_getAll | W_getById | W_update | W_delete | W_duplicate
| W_validate | W_test.

Inductive agentsApi_key :=
| A_create | A_getAll | A_getById | A_update | A_delete | A_test | A_getTypes.

Inductive toolsApi_key :=
| T_getAll | T_getById | T_getProviders | T_getProviderModels.

(** Arguments of a call; each function reads the ones it declares. *)
Record fn_args := {
  fa_id : string;                 (* [id] / [name] / [provider] *)
  fa_newName : string;            (* [newName] *)
  fa_data : json;                 (* [data] / [testInput] *)
  fa_params : list (string * json)
}.

Definition call_health (srv : backend) (k : healthApi_key) : net unit :=
  match k with
  | H_checkHealth => let! _r := healthApi.checkHealth srv in ret ()
  | H_checkDetailedHealth =>
      let! _r := healthApi.checkDetailedHealth srv in ret ()
  end.

Definition call_workflows (srv : backend) (k : workflowsApi_key)
    (a : fn_args) : net unit :=
  match k with
  | W_create => let! _r := workflowsApi.create srv (fa_data a) in ret ()
  | W_getAll => let! _r := workflowsApi.getAll srv (fa_params a) in ret ()
  | W_getById => let! _r := workflowsApi.getById srv (fa_id a) in ret ()
  | W_update =>
      let! _r := workflowsApi.update srv (fa_id a) (fa_data a) in ret ()
  | W_delete => let! _r := workflowsApi.delete srv (fa_id a) in ret ()
  | W_duplicate =>
      let! _r := workflowsApi.duplicate srv (fa_id a) (fa_newName a) in ret ()
  | W_validate => let! _r := workflowsApi.validate srv (fa_id a) in ret ()
  | W_test => let! _r := workflowsApi.test srv (fa_id a) (fa_data a) in ret ()
  end.

Definition call_agents (srv : backend) (k : agentsApi_key) (a : fn_args)
    : net unit :=
  match k with
  | A_create => let! _r := agentsApi.create srv (fa_data a) in ret ()
  | A_getAll => let! _r := agentsApi.getAll srv (fa_params a) in ret ()
  | A_getById => let! _r := agentsApi.getById srv (fa_id a) in ret ()
  | A_update => let! _r := agentsApi.update srv (fa_id a) (fa_data a) in ret ()
  | A_delete => let! _r := agentsApi.delete srv (fa_id a) in ret ()
  | A_test => let! _r := agentsApi.test srv (fa_id a) (fa_data a) in ret ()
  | A_getTypes => let! _r := agentsApi.getTypes srv in ret ()
  end.

Definition call_tools (srv : backend) (k : toolsApi_key) (a : fn_args)
    : net unit :=
  match k with
  | T_getAll => let! _r := toolsApi.getAll srv in ret ()
  | T_getById => let! _r := toolsApi.getById srv (fa_id a) in ret ()
  | T_getProviders => let! _r := toolsApi.getProviders srv in ret ()
  | T_getProviderModels =>
      let! _r := toolsApi.getProviderModels srv (fa_id a) in ret ()
  end.

(** What the instance hands to the transport for a request: the method and
    the URL string, [baseURL] put in front.  The string is compared as it
    is built; what the transport makes of it (cutting a query or fragment,
    resolving dot segments) happens outside [api.js]. *)
Definition route (r : request) : http_method * string :=
  (req_method r, full_path api r).

Definition route_paths (rs : list request) : list (http_method * string) :=
  route <$> rs.




End ApiCalls.

(* ===================================================================== *)
(** ** What the Dashboard and Workflows pages render *)
(* ===================================================================== *)

Module DashboardView.
Import Js Axios Payload Api Dashboard.

(** The counters of a dashboard that has not loaded anything. *)
Definition zero_stats : stats :=
  {| workflows := 0; executions := 0; agents := 0; tools := 0 |}.

#[global] Instance element_eq_dec : EqDecision element.
Proof. solve_decision. Defined.

(** [x || 'unknown'] on an optional string: [undefined] and [''] are
    falsy. *)
Definition or_unknown (x : option string) : string :=
  match x with
  | Some (String c rest) => String c rest
  | _ => "unknown"
  end.

(** The health banner: the classes of the box, the icon, the classes and
    text of the heading, and the three lines under it. *)
Record banner := {
  box_class : string;
  banner_icon : element;
  heading_class : string;
  heading : string;
  details : list string
}.

(** The block under [{healthStatus && (...)}]. *)
Definition render_banner (healthStatus : health_info) : banner :=
  {| box_class :=
       "rounded-md p-4 " +:+
       (if decide (health_status healthStatus = "healthy")
        then "bg-green-50 border border-green-200"
        else "bg-red-50 border border-red-200");
     banner_icon :=
       if decide (health_status healthStatus = "healthy")
       then {| component := "CheckCircleIcon";
               className := "h-5 w-5 text-green-400" |}
       else {| component := "ExclamationTriangleIcon";
               className := "h-5 w-5 text-red-400" |};
     heading_class :=
       "text-sm font-medium " +:+
       (if decide (health_status healthStatus = "healthy")
        then "text-green-800" else "text-red-800");
     heading := "System Status: " +:+ health_status healthStatus;
     details :=
       ["Database: " +:+ or_unknown (health_database healthStatus);
        "Default LLM Provider: "
          +:+ or_unknown (health_default_llm healthStatus);
        "Tracing: " +:+
          (if health_tracing healthStatus then "enabled" else "disabled")] |}.

End DashboardView.

Module WorkflowsView.
Import Js Axios Payload Api Workflows.

(** The request [fetchWorkflows] sends, as a value: no parameters. *)
Definition list_request : request := get "/workflows/" [].

(** One [<tr>] of the workflows table. *)
Record row := {
  row_key : string;
  row_link : string;               (* [to] of the name and Edit links *)
  row_name : string;
  row_description : string;
  row_badge : string;
  row_status : string;
  row_version : string;
  row_nodes : nat;
  row_updated : string;
  row_delete : string              (* the id [handleDelete] is called with *)
}.

(** [workflow.description || 'No description'] *)
Definition description_or_default (d : option string) : string :=
  match d with
  | Some (String c rest) => String c rest
  | _ => "No description"
  end.

(** The exception of reading a name that is bound nowhere. *)
Inductive exception := ReferenceError (identifier : string).

(** What a render of the component comes to: one of the three returns, or
    an exception thrown while the JSX is evaluated. *)
Inductive view :=
| Skeleton
| ErrorView (message : string)
| Table (rows : list row)
| Throws (e : exception).

Section Render.

(** [new Date(s).toLocaleDateString()] depends on the browser's locale and
    time zone; the page is rendered over it. *)
Variable toLocaleDateString : string → string.

Definition render_row (workflow : Payload.workflow) : row :=
  {| row_key := wf_id workflow;
     row_link := "/workflows/" +:+ wf_id workflow;
     row_name := wf_name workflow;
     row_description := description_or_default (wf_description workflow);
     row_badge := getStatusBadge (wf_status workflow);
     row_status := wf_status workflow;
     row_version := wf_version workflow;
     row_nodes := or_zero (wf_nodes workflow);
     row_updated := toLocaleDateString (wf_updated_at workflow);
     row_delete := wf_id workflow |}.

(** The three returns of the component: the skeleton while loading, the
    error with its Retry button when [error] is truthy, else the page with
    the table when there are workflows.  With none, the "No workflows"
    branch (l.198-214) is evaluated; it starts with [<DocumentTextIcon>],
    but l.3 imports [PlusIcon], [PlayIcon], [PencilIcon] and [TrashIcon]
    only and the module binds the name nowhere else, so reading it
    throws. *)
Definition render (st : state) : view :=
  if loading st then Skeleton
  else
    match error st with
    | Some (String c rest) => ErrorView (String c rest)
    | _ =>
        if decide (0 < length (workflows st))
        then Table (render_row <$> workflows st)
        else Throws (ReferenceError "DocumentTextIcon")
    end.

End Render.

(** What can happen on the page: the list is fetched (on mount, or by the
    Retry button), or a Delete button is clicked, the dialog answered and
    the request answered in turn.  Each time the backend may answer
    differently. *)
Inductive action :=
| Fetch (srv : backend)
| Delete (srv : backend) (confirmed : bool) (id : string).

Definition act (a : action) (st : state) : net state :=
  match a with
  | Fetch srv => fetchWorkflows srv st
  | Delete srv confirmed id =>
      let! r := delete_and_settle srv confirmed id st in ret r.1
  end.

Fixpoint act_all (actions : list action) (st : state) : net state :=
  match actions with
  | [] => ret st
  | a :: rest => let! st' := act a st in act_all rest st'
  end.

End WorkflowsView.

(* ===================================================================== *)
(** ** setup.sh *)
(* ===================================================================== *)

Module Setup.

(** What the script looks at: the files and commands it tests for, and how
    the three commands it runs end.  Of [pip3] and [npm], run as the
    condition of an [if], only success or failure is seen; [cp] runs as a
    plain command, and its exit status is what counts. *)
Record machine := {
  has_readme : bool;               (* [-f README.md] *)
  has_server_dir : bool;           (* [-d server] *)
  has_client_dir : bool;           (* [-d client] *)
  has_python3 : bool;              (* [command -v python3] *)
  has_node : bool;
  has_npm : bool;
  has_env : bool;                  (* [-f server/.env] *)
  cp_status : nat;                 (* exit status of [cp .env.example .env] *)
  pip_ok : bool;                   (* [pip3 install ...] succeeds *)
  has_node_modules : bool;         (* [-d client/node_modules] *)
  npm_ok : bool;                   (* [npm install] succeeds *)
  has_docker : bool;
  has_docker_compose : bool
}.

(** The commands of the script that change the machine. *)
Inductive command := CopyEnv | PipInstall | NpmInstall.

#[global] Instance command_eq_dec : EqDecision command.
Proof. solve_decision. Defined.

(** What a run leaves behind: the lines the script echoes and the commands
    it runs, both oldest first. *)
Record log := { output : list string; commands : list command }.

(** A piece of the script: it extends the log and either goes on ([None])
    or exits with a status. *)
Definition script := log → log * option nat.

Definition echo (line : string) : script :=
  λ l, ({| output := output l ++ [line]; commands := commands l |}, None).

Definition run_command (c : command) : script :=
  λ l, ({| output := output l; commands := commands l ++ [c] |}, None).

Definition exit (status : nat) : script := λ l, (l, Some status).

Definition skip : script := λ l, (l, None).

Definition then_ (a b : script) : script :=
  λ l, match a l with
       | (l', None) => b l'
       | (l', Some status) => (l', Some status)
       end.

Notation "a >>> b" := (then_ a b) (at level 65, right associativity).

Definition if_ (condition : bool) (a b : script) : script :=
  if condition then a else b.

(** The colours, as [echo -e] prints them. *)
Definition ESC : string := String (ascii_of_nat 27) "".
Definition RED : string := ESC +:+ "[0;31m".
Definition GREEN : string := ESC +:+ "[0;32m".
Definition YELLOW : string := ESC +:+ "[1;33m".
Definition BLUE : string := ESC +:+ "[0;34m".
Definition NC : string := ESC +:+ "[0m".

Definition print_status (m : string) : script :=
  echo (BLUE +:+ "[INFO]" +:+ NC +:+ " " +:+ m).
Definition print_success (m : string) : script :=
  echo (GREEN +:+ "[SUCCESS]" +:+ NC +:+ " " +:+ m).
Definition print_warning (m : string) : script :=
  echo (YELLOW +:+ "[WARNING]" +:+ NC +:+ " " +:+ m).
Definition print_error (m : string) : script :=
  echo (RED +:+ "[ERROR]" +:+ NC +:+ " " +:+ m).

(** A command run under [set -e] (l.5), outside a condition: when it ends
    with a status other than 0 the script exits at once, with that
    status. *)
Definition must (c : command) (status : nat) : script :=
  run_command c >>>
  match status with
  | 0 => skip
  | S _ => exit status
  end.

Definition final_instructions : script :=
  echo "" >>>
  print_success "Setup complete! 🎉" >>>
  echo "" >>>
  echo "To start the system:" >>>
  echo "" >>>
  echo "1. Start the backend server:" >>>
  echo "   cd server" >>>
  echo "   python test_server.py  # Simple server" >>>
  echo "   # OR (with full dependencies):" >>>
  echo "   # python main.py" >>>
  echo "" >>>
  echo "2. In another terminal, start the frontend:" >>>
  echo "   cd client" >>>
  echo "   npm run dev" >>>
  echo "" >>>
  echo "3. Optional: Start MongoDB (if you have Docker):" >>>
  echo "   docker-compose up -d mongodb" >>>
  echo "" >>>
  echo "URLs:" >>>
  echo "  Frontend: http://localhost:3000" >>>
  echo "  Backend:  http://localhost:8000" >>>
  echo "  API Docs: http://localhost:8000/docs (with full server)" >>>
  echo "" >>>
  print_status "Happy workflow building! 🤖".

(** The script, top to bottom.  The two [cd] into directories the first
    test has found are taken to succeed. *)
Definition setup (m : machine) : script :=
  echo "🚀 Starting Agentic Workflow System Setup..." >>>
  if_ (negb (has_readme m) || negb (has_server_dir m)
       || negb (has_client_dir m))
    (print_error "Please run this script from the project root directory" >>>
     exit 1)
    skip >>>
  print_status "Setting up Agentic Workflow System..." >>>
  print_status "Checking dependencies..." >>>
  if_ (negb (has_python3 m))
    (print_error "Python 3 is required but not installed" >>> exit 1) skip >>>
  if_ (negb (has_node m))
    (print_error "Node.js is required but not installed" >>> exit 1) skip >>>
  if_ (negb (has_npm m))
    (print_error "npm is required but not installed" >>> exit 1) skip >>>
  print_success "Dependencies check passed" >>>
  print_status "Setting up backend..." >>>
  if_ (negb (has_env m))
    (print_status "Creating .env file..." >>>
     must CopyEnv (cp_status m) >>>
     print_success ".env file created from template")
    (print_warning ".env file already exists") >>>
  print_status "Installing basic Python dependencies..." >>>
  run_command PipInstall >>>
  if_ (pip_ok m)
    (print_success "Basic Python dependencies installed")
    (print_warning
       "Could not install Python dependencies. Please install manually:" >>>
     echo "  pip3 install fastapi uvicorn python-dotenv pydantic") >>>
  print_status "Setting up frontend..." >>>
  if_ (negb (has_node_modules m))
    (print_status "Installing Node.js dependencies..." >>>
     run_command NpmInstall >>>
     if_ (npm_ok m)
       (print_success "Node.js dependencies installed")
       (print_error "Failed to install Node.js dependencies" >>> exit 1))
    (print_warning "Node.js dependencies already installed") >>>
  if_ (has_docker m && has_docker_compose m)
    (print_status "Docker detected. You can start MongoDB with:" >>>
     echo "  docker-compose up -d mongodb")
    (print_warning
       "Docker not detected. You'll need to install MongoDB manually") >>>
  final_instructions.

(** A run of the script from an empty log: what it printed and ran, and
    its exit status (0 when it reaches the end). *)
Definition run (m : machine) : log * nat :=
  match setup m {| output := []; commands := [] |} with
  | (l, Some status) => (l, status)
  | (l, None) => (l, 0)
  end.

Definition in_project_root (m : machine) : bool :=
  has_readme m && has_server_dir m && has_client_dir m.

Definition has_tools (m : machine) : bool :=
  has_python3 m && has_node m && has_npm m.

(** A machine on which everything is in place. *)
Definition ready : machine :=
  {| has_readme := true; has_server_dir := true; has_client_dir := true;
     has_python3 := true; has_node := true; has_npm := true;
     has_env := false; cp_status := 0; pip_ok := true;
     has_node_modules := false; npm_ok := true;
     has_docker := true; has_docker_compose := true |}.

End Setup.

(* ===================================================================== *)
(** ** The execution engine, checkpoint store and interaction broker *)
(* ===================================================================== *)

(** The engine is the Python backend behind the executions endpoints; its
    sources ([server/app]) are not in the tree, so every definition of
    this module is modelled from the design document (sections 3, 4.2,
    4.5 and 4.6). *)

Module Engine.
Import Js.

Abbreviation exec_id := nat (only parsing).
Abbreviation interaction_id := nat (only parsing).
Abbreviation node_id := string (only parsing).
(** Execution state: a key-value store. *)
Abbreviation kv := (gmap string json) (only parsing).

(** Modelled from the spec: the server's execution status values
    (sections 3 and 6). *)
Inductive exec_status :=
| Pending | Running | Paused | Completed | Failed | Cancelled.

(** Modelled from the spec: the server's interaction status values. *)
Inductive interaction_status := IPending | IResponded | ITimedOut.

(** Modelled from the spec: the server's node types. *)
Inductive node_type := NStart | NAgent | NTool | NHuman | NConditional | NEnd.

#[global] Instance exec_status_eq_dec : EqDecision exec_status.
Proof. solve_decision. Defined.
#[global] Instance interaction_status_eq_dec : EqDecision interaction_status.
Proof. solve_decision. Defined.
#[global] Instance node_type_eq_dec : EqDecision node_type.
Proof. solve_decision. Defined.

(** Modelled from the spec: the server's node model (section 3).  Retry
    policy of a node: how many times a failed handler is tried again
    (zero by default) and the base of the exponential backoff. *)
Record retry_policy := { max_retries : nat; backoff : nat }.

(** Modelled from the spec: a node of a compiled definition on the
    server (section 3). *)
Record node := {
  n_type : node_type;
  n_config : kv;
  n_retry : retry_policy
}.

(** Modelled from the spec: the server's [NodeResult] (section 4.2). *)
Record NodeResult := {
  next_node_id : option node_id;        (* absent: terminal *)
  state_delta : kv;
  interrupt_request : option string     (* the rendered prompt *)
}.

(** Modelled from the spec: the outcome of a handler invocation on the
    server, a [NodeResult] or a raised [NodeError]. *)
Inductive handler_outcome :=
| Returned (r : NodeResult)
| Raised (node_error : string).

(** Modelled from the spec: the server's Execution record (section 3). *)
Record execution := {
  workflow_id : string;
  status : exec_status;
  current_node : option node_id;
  state : kv;
  last_error : option string;
  created_at : nat;
  updated_at : nat
}.

(** Modelled from the spec: the server's Checkpoint record (section 3). *)
Record checkpoint := {
  cp_execution : exec_id;
  cp_sequence : nat;
  cp_node : node_id;                    (* the node just completed *)
  cp_snapshot : kv;
  cp_timestamp : nat
}.

(** Modelled from the spec: the server's Interaction record (section 3). *)
Record interaction := {
  i_execution : exec_id;
  i_node : node_id;
  i_prompt : string;
  i_status : interaction_status;
  i_response : option kv
}.

(** Modelled from the spec: the server's step-level log.  It records
    what the engine did; the newest event comes first. *)
Inductive event :=
| EvCreated (e : exec_id)
| EvStarted (e : exec_id)
| EvInvoke (e : exec_id) (step : nat) (n : node_id)
| EvCommit (e : exec_id) (sequence : nat)
| EvTransition (e : exec_id) (step : nat) (to : exec_status)
| EvFailed (e : exec_id) (step : nat)
| EvStoreUnavailable (e : exec_id) (step : nat)
| EvResponded (e : exec_id) (i : interaction_id)
| EvCancelled (e : exec_id).

#[global] Instance event_eq_dec : EqDecision event.
Proof. solve_decision. Defined.

(** Modelled from the spec: the server's durable state -- executions,
    the append-only checkpoint log and the interaction records. *)
Record system := {
  executions : gmap nat execution;
  checkpoints : list checkpoint;        (* append-only, oldest first *)
  interactions : gmap nat interaction;
  trace : list event;                   (* newest first *)
  clock : nat
}.

(** Modelled from the spec: the server's error taxonomy (section 7), as
    far as the engine operations raise it. *)
Inductive error :=
| ExecutionNotFound
| InteractionNotFound
| InvalidTransition
| NodeError (message : string)
| InteractionConflictError
| StoreUnavailableError.

Inductive result := Ok | Err (err : error).

#[global] Instance error_eq_dec : EqDecision error.
Proof. solve_decision. Defined.
#[global] Instance result_eq_dec : EqDecision result.
Proof. solve_decision. Defined.

Definition init : system :=
  {| executions := ∅; checkpoints := []; interactions := ∅;
     trace := []; clock := 0 |}.

(** *** Field updates *)

Definition log (ev : event) (s : system) : system :=
  {| executions := executions s; checkpoints := checkpoints s;
     interactions := interactions s; trace := ev :: trace s;
     clock := clock s |}.

Definition at_time (t : nat) (s : system) : system :=
  {| executions := executions s; checkpoints := checkpoints s;
     interactions := interactions s; trace := trace s; clock := t |}.

Definition put_execution (e : exec_id) (ex : execution) (s : system) : system :=
  {| executions := <[e := ex]> (executions s); checkpoints := checkpoints s;
     interactions := interactions s; trace := trace s; clock := clock s |}.

Definition put_interaction (i : interaction_id) (it : interaction)
    (s : system) : system :=
  {| executions := executions s; checkpoints := checkpoints s;
     interactions := <[i := it]> (interactions s); trace := trace s;
     clock := clock s |}.

Definition append_checkpoint (cp : checkpoint) (s : system) : system :=
  {| executions := executions s; checkpoints := checkpoints s ++ [cp];
     interactions := interactions s; trace := trace s; clock := clock s |}.

Definition with_status (st : exec_status) (now : nat) (ex : execution)
    : execution :=
  {| workflow_id := workflow_id ex; status := st;
     current_node := current_node ex; state := state ex;
     last_error := last_error ex; created_at := created_at ex;
     updated_at := now |}.

Definition with_state (st : kv) (ex : execution) : execution :=
  {| workflow_id := workflow_id ex; status := status ex;
     current_node := current_node ex; state := st;
     last_error := last_error ex; created_at := created_at ex;
     updated_at := updated_at ex |}.

Definition with_current (n : option node_id) (ex : execution) : execution :=
  {| workflow_id := workflow_id ex; status := status ex;
     current_node := n; state := state ex;
     last_error := last_error ex; created_at := created_at ex;
     updated_at := updated_at ex |}.

Definition with_error (msg : string) (ex : execution) : execution :=
  {| workflow_id := workflow_id ex; status := status ex;
     current_node := current_node ex; state := state ex;
     last_error := Some msg; created_at := created_at ex;
     updated_at := updated_at ex |}.

(** Modelled from the spec: step 3 of the server's step protocol.
    Merging a delta into a state: the keys of the delta overwrite. *)
Definition merge (delta st : kv) : kv := delta ∪ st.

(** *** Checkpoint store *)

Definition log_of (e : exec_id) (cps : list checkpoint) : list checkpoint :=
  filter (λ cp, cp_execution cp = e) cps.

(** Modelled from the spec: the server's checkpoint store (section 4.5).
    Sequence number of the latest checkpoint of an execution, 0 when it
    has none. *)
Definition latest_sequence (e : exec_id) (cps : list checkpoint) : nat :=
  max_list (cp_sequence <$> log_of e cps).

(** Modelled from the spec: the store's [read_latest], the checkpoint
    with the highest sequence number. *)
Definition read_latest (e : exec_id) (cps : list checkpoint)
    : option checkpoint :=
  head (filter (λ cp, cp_sequence cp = latest_sequence e cps) (log_of e cps)).

(** *** Interaction broker *)

(** Modelled from the spec: a pending Interaction of an execution, as
    the server's broker tracks it. *)
Definition pending_for (e : exec_id) (it : interaction) : Prop :=
  i_execution it = e ∧ i_status it = IPending.

#[global] Instance pending_for_dec e it : Decision (pending_for e it).
Proof. unfold pending_for. apply _. Defined.


(** *** The engine, over its collaborators *)

Section Protocol.

(** The compiled definition: the typed node handle behind each node id. *)
Variable definition : node_id → node.
(** The node handlers, resolved by node type: [execute(state, config)].
    The last argument is the time of the call: an agent or a tool may
    answer differently on a retry. *)
Variable execute : node_type → kv → kv → nat → handler_outcome.
(** Whether the durable store can be reached at a given time. *)
Variable store_reachable : nat → bool.

(** Modelled from the spec: the server's retry loop (section 4.2).  The
    handler runs once and, while it raises [NodeError] and retries are
    left, again after an exponentially growing backoff; the outcome of
    the last attempt is returned with the time it ended. *)
Fixpoint invoke (n : node) (st : kv) (retries_left attempt now : nat)
    : handler_outcome * nat :=
  match execute (n_type n) st (n_config n) now with
  | Returned r => (Returned r, S now)
  | Raised err =>
      match retries_left with
      | 0 => (Raised err, S now)
      | S k =>
          invoke n st k (S attempt)
                 (S now + backoff (n_retry n) * 2 ^ attempt)
      end
  end.

(** Modelled from the spec: the server's execution creation.  A new
    execution is [pending] at the entry node, with the given input as its
    state. *)
Definition create_execution (wf : string) (entry : node_id) (input : kv)
    (s : system) : exec_id * system :=
  let e := fresh (dom (executions s)) in
  let ex := {| workflow_id := wf; status := Pending;
               current_node := Some entry; state := input;
               last_error := None; created_at := clock s;
               updated_at := clock s |} in
  (e, log (EvCreated e) (put_execution e ex s)).

(** Modelled from the spec: the server's start operation,
    [pending → running]. *)
Definition start (e : exec_id) (s : system) : result * system :=
  match executions s !! e with
  | None => (Err ExecutionNotFound, s)
  | Some ex =>
      match status ex with
      | Pending =>
          (Ok, log (EvStarted e)
                 (put_execution e (with_status Running (clock s) ex) s))
      | _ => (Err InvalidTransition, s)
      end
  end.

(** Modelled from the spec: the store's [write(execution_id, sequence,
    snapshot)].  It either appends the whole checkpoint or, when the
    store cannot be reached, changes nothing. *)
Definition commit (e : exec_id) (seq : nat) (n : node_id) (snapshot : kv)
    (s : system) : option system :=
  if store_reachable (clock s) then
    Some (log (EvCommit e seq)
            (append_checkpoint
               {| cp_execution := e; cp_sequence := seq; cp_node := n;
                  cp_snapshot := snapshot; cp_timestamp := clock s |} s))
  else None.

(** Modelled from the spec: steps 5 and 6 of the server's step protocol.
    With an interrupt request an Interaction is created and the execution
    pauses at the node that follows; without a next node it completes;
    otherwise it moves on to the next node. *)
Definition transition (e : exec_id) (seq : nat) (n : node_id)
    (r : NodeResult) (ex : execution) (s : system) : system :=
  match interrupt_request r with
  | Some prompt =>
      let i := fresh (dom (interactions s)) in
      let it := {| i_execution := e; i_node := n; i_prompt := prompt;
                   i_status := IPending; i_response := None |} in
      log (EvTransition e seq Paused)
        (put_execution e
           (with_status Paused (clock s) (with_current (next_node_id r) ex))
           (put_interaction i it s))
  | None =>
      match next_node_id r with
      | None =>
          log (EvTransition e seq Completed)
            (put_execution e
               (with_status Completed (clock s) (with_current None ex)) s)
      | Some n' =>
          log (EvTransition e seq Running)
            (put_execution e
               (with_status Running (clock s) (with_current (Some n') ex)) s)
      end
  end.

(** Modelled from the spec: the server's step protocol (section 4.2).
    1-2. the handler of the current node is resolved by type and invoked,
         with retries; when they are exhausted the execution is [failed]
         with the last error, next to its last committed checkpoint;
    3.   the state delta is merged into the execution state;
    4.   the checkpoint, numbered one above the latest, is committed; if
         the store cannot be reached the step is not committed, the
         execution is left as it was and the caller may try again;
    5-6. only then the execution pauses, completes or moves on. *)
Definition step (e : exec_id) (s : system) : result * system :=
  match executions s !! e with
  | None => (Err ExecutionNotFound, s)
  | Some ex =>
      match status ex, current_node ex with
      | Running, Some n =>
          let seq := S (latest_sequence e (checkpoints s)) in
          let s1 := log (EvInvoke e seq n) s in
          let nd := definition n in
          let '(outcome, now) :=
            invoke nd (state ex) (max_retries (n_retry nd)) 0 (clock s) in
          let s2 := at_time now s1 in
          match outcome with
          | Raised err =>
              (Err (NodeError err),
               log (EvFailed e seq)
                 (put_execution e
                    (with_status Failed now (with_error err ex)) s2))
          | Returned r =>
              let ex' := with_state (merge (state_delta r) (state ex)) ex in
              match commit e seq n (state ex') (put_execution e ex' s2) with
              | None => (Err StoreUnavailableError,
                         log (EvStoreUnavailable e seq) s2)
              | Some s3 => (Ok, transition e seq n r ex' s3)
              end
          end
      | _, _ => (Err InvalidTransition, s)
      end
  end.

(** Modelled from the spec: the broker's [respond(execution_id,
    interaction_id, payload)] (section 4.6).  It fails with
    [InteractionConflictError] if the interaction is already responded or
    the execution is not paused; otherwise it marks the interaction
    responded, merges the payload into the execution state and lets the
    engine resume from the node that follows the interaction (when no
    node follows, the execution is complete).  An interaction that timed
    out is stale and conflicts too; ids that do not exist, or do not
    belong together, are not found. *)
Definition respond (e : exec_id) (i : interaction_id) (payload : kv)
    (s : system) : result * system :=
  let already_responded :=
    match interactions s !! i with
    | Some it => bool_decide (i_status it = IResponded)
    | None => false
    end in
  let not_paused :=
    match executions s !! e with
    | Some ex => bool_decide (status ex ≠ Paused)
    | None => false
    end in
  if already_responded || not_paused then (Err InteractionConflictError, s)
  else
    match executions s !! e, interactions s !! i with
    | Some ex, Some it =>
        if bool_decide (i_execution it = e) then
          if bool_decide (i_status it = IPending) then
            let it' := {| i_execution := i_execution it; i_node := i_node it;
                          i_prompt := i_prompt it; i_status := IResponded;
                          i_response := Some payload |} in
            let resumed :=
              match current_node ex with
              | Some _ => Running
              | None => Completed
              end in
            let ex' := with_status resumed (clock s)
                         (with_state (merge payload (state ex)) ex) in
            (Ok, log (EvResponded e i)
                   (put_execution e ex' (put_interaction i it' s)))
          else (Err InteractionConflictError, s)
        else (Err InteractionNotFound, s)
    | None, _ => (Err ExecutionNotFound, s)
    | _, None => (Err InteractionNotFound, s)
    end.

(** Modelled from the spec: the server's cancellation (section 4.2),
    [running/paused → cancelled]; the state is kept as it is and no
    checkpoint is written. *)
Definition cancel (e : exec_id) (s : system) : result * system :=
  match executions s !! e with
  | None => (Err ExecutionNotFound, s)
  | Some ex =>
      match status ex with
      | Running | Paused =>
          (Ok, log (EvCancelled e)
                 (put_execution e (with_status Cancelled (clock s) ex) s))
      | _ => (Err InvalidTransition, s)
      end
  end.

(** Modelled from the spec: the operations the server exposes (section 6)
    and the worker's step. *)
Inductive request :=
| Create (wf : string) (entry : node_id) (input : kv)
| Start (e : exec_id)
| Step (e : exec_id)
| Respond (e : exec_id) (i : interaction_id) (payload : kv)
| Cancel (e : exec_id).

Definition handle (r : request) (s : system) : system :=
  match r with
  | Create wf entry input => (create_execution wf entry input s).2
  | Start e => (start e s).2
  | Step e => (step e s).2
  | Respond e i payload => (respond e i payload s).2
  | Cancel e => (cancel e s).2
  end.

(** The system after a sequence of requests, the first one first. *)
Definition handle_all (rs : list request) (s : system) : system :=
  foldl (λ s r, handle r s) s rs.

Inductive reachable : system → Prop :=
| reachable_init : reachable init
| reachable_handle (r : request) (s : system) :
    reachable s → reachable (handle r s).

(** Modelled from the spec: the server's step loop.  The engine keeps
    stepping an execution while it is running, for at most [fuel] steps. *)
Fixpoint run (fuel : nat) (e : exec_id) (s : system) : system :=
  match fuel with
  | 0 => s
  | S fuel' =>
      match executions s !! e with
      | Some ex =>
          if bool_decide (status ex = Running)
          then run fuel' e (step e s).2
          else s
      | None => s
      end
  end.

End Protocol.

(** *** Reading the record of events *)

(** The execution an event is about. *)
Definition event_of (ev : event) : exec_id :=
  match ev with
  | EvCreated e | EvStarted e | EvInvoke e _ _ | EvCommit e _
  | EvTransition e _ _ | EvFailed e _ | EvStoreUnavailable e _
  | EvResponded e _ | EvCancelled e => e
  end.

Definition is_commit (e : exec_id) (ev : event) : bool :=
  match ev with
  | EvCommit e' _ => bool_decide (e' = e)
  | _ => false
  end.

(** How many checkpoints of an execution a record of events commits. *)
Definition committed (e : exec_id) (t : list event) : nat :=
  length (List.filter (is_commit e) t).

(** An event is in order after the [earlier] ones when: a step is begun
    under the number that follows the checkpoints committed so far; a
    checkpoint is committed under that same number, right after the step
    was begun; and the execution is moved on right after the checkpoint
    of the step was committed. *)
Definition event_ok (ev : event) (earlier : list event) : Prop :=
  match ev with
  | EvInvoke e n _ => n = S (committed e earlier)
  | EvCommit e n =>
      n = S (committed e earlier)
      ∧ ∃ node rest, earlier = EvInvoke e n node :: rest
  | EvTransition e n _ => ∃ rest, earlier = EvCommit e n :: rest
  | _ => True
  end.

Fixpoint trace_ok (t : list event) : Prop :=
  match t with
  | [] => True
  | ev :: earlier => event_ok ev earlier ∧ trace_ok earlier
  end.

(** The checkpoints of every execution are numbered 1, 2, ... in the
    order of the log, one for each commit on record. *)
Definition numbered (s : system) : Prop :=
  ∀ e, cp_sequence <$> log_of e (checkpoints s)
       = seq 1 (committed e (trace s)).

(** At most one pending interaction per execution. *)
Definition one_pending (s : system) : Prop :=
  ∀ e i j it jt,
    interactions s !! i = Some it → interactions s !! j = Some jt →
    pending_for e it → pending_for e jt → i = j.

(** An interaction is pending only while its execution waits for it, or
    was cancelled while waiting. *)
Definition pending_while_paused (s : system) : Prop :=
  ∀ e ex i it,
    executions s !! e = Some ex → interactions s !! i = Some it →
    pending_for e it → status ex = Paused ∨ status ex = Cancelled.

(** Every interaction belongs to an execution on record. *)
Definition interactions_owned (s : system) : Prop :=
  ∀ i it, interactions s !! i = Some it →
          is_Some (executions s !! i_execution it).

End Engine.

(* ===================================================================== *)
(** ** The scenario of the design document *)
(* ===================================================================== *)

(** [start → agent("classify") → conditional(state.category == "urgent" ?
    human_review : end)], with handlers simple enough to run. *)

Module Scenario.
Import Js Engine.

Definition next_of (config : gmap string json) : option string :=
  match config !! "next" with
  | Some (JStr n) => Some n
  | _ => None
  end.

Definition plain (ty : node_type) (next : string) : node :=
  {| n_type := ty; n_config := {["next" := JStr next]};
     n_retry := {| max_retries := 0; backoff := 0 |} |}.

Definition definition (n : string) : node :=
  if decide (n = "start") then plain NStart "classify"
  else if decide (n = "classify") then
    {| n_type := NAgent; n_config := {["next" := JStr "route"]};
       n_retry := {| max_retries := 2; backoff := 1 |} |}
  else if decide (n = "route") then plain NConditional "human_review"
  else if decide (n = "human_review") then plain NHuman "end"
  else {| n_type := NEnd; n_config := ∅;
          n_retry := {| max_retries := 0; backoff := 0 |} |}.

(** The agent fails on its first call (time 1 of the run below) and then
    classifies the input as urgent. *)
Definition execute (ty : node_type) (st config : gmap string json)
    (now : nat) : handler_outcome :=
  match ty with
  | NStart | NTool =>
      Returned {| next_node_id := next_of config; state_delta := ∅;
                  interrupt_request := None |}
  | NAgent =>
      if decide (now = 1) then Raised "model provider timeout"
      else Returned {| next_node_id := next_of config;
                       state_delta := {["category" := JStr "urgent"]};
                       interrupt_request := None |}
  | NConditional =>
      match st !! "category" with
      | Some (JStr c) =>
          Returned {| next_node_id :=
                        if decide (c = "urgent") then next_of config
                        else Some "end";
                      state_delta := ∅; interrupt_request := None |}
      | _ => Raised "EvaluationError: category is undefined"
      end
  | NHuman =>
      Returned {| next_node_id := next_of config; state_delta := ∅;
                  interrupt_request := Some "Please review this request" |}
  | NEnd =>
      Returned {| next_node_id := None; state_delta := ∅;
                  interrupt_request := None |}
  end.

Definition always_up (now : nat) : bool := true.

(** The store is down at time 4 only. *)
Definition flaky (now : nat) : bool := negb (now =? 4).

Definition approved : gmap string json := {["approved" := JBool true]}.

(** Created, started and run until it pauses for the human review. *)
Definition paused_system (store : nat → bool) : system :=
  run definition execute store 10 0
    (start 0 (create_execution "wf-1" "start" ∅ init).2).2.

(** Then answered and run to the end. *)
Definition finished_system (store : nat → bool) : system :=
  run definition execute store 10 0
    (respond 0 0 approved (paused_system store)).2.

End Scenario.

(* ===================================================================== *)
(** ** Facts about the API layer *)
(* ===================================================================== *)

Module ApiFacts.
Import Js Axios Payload Api.

(** A path template of [api.js] that starts with a slash and a letter is
    relative, so the instance's [baseURL] is put in front of it. *)
Lemma full_path_executions (r : request) (rest : string) :
  req_url r = "/executions/" +:+ rest →
  full_path api r = "/api/v1/executions/" +:+ rest.
Proof. intros Hurl. unfold full_path. rewrite Hurl. reflexivity. Qed.

Lemma issued_dispatch {A} (ans : request → promise A) (r : request) :
  issued (dispatch ans r) = [r].
Proof. reflexivity. Qed.


Lemma call_issues_one (srv : backend) (k : executionsApi_key) (a : call_args) :
  ∃ r, issued (call srv k a) = [r]
       ∧ ∃ rest, req_url r = "/executions/" +:+ rest.
Proof.
  destruct k; eexists; (split; [reflexivity|]); cbn; eexists; reflexivity.
Qed.

(** C5: for every execution id, interaction id and payload,
    [respondToInteraction] puts exactly one request on the wire: a POST to
    [/api/v1/executions/{executionId}/interactions/{interactionId}/respond]
    whose body is the object [{response: payload}]. *)
Theorem respondToInteraction_request (srv : backend)
    (executionId interactionId : string) (payload : json) (w : wire) :
  ∃ r, (executionsApi.respondToInteraction srv executionId interactionId
          payload w).2 = w ++ [r]
       ∧ req_method r = POST
       ∧ full_path api r =
           "/api/v1/executions/" +:+ executionId +:+ "/interactions/"
             +:+ interactionId +:+ "/respond"
       ∧ req_data r = Some (JObj [("response", payload)])
       ∧ req_params r = [].
Proof.
  eexists. split; [reflexivity|]. repeat split.
Qed.

End ApiFacts.

(* ===================================================================== *)
(** ** Facts about the status helpers of the pages *)
(* ===================================================================== *)

Module BadgeFacts.
Import Js Payload.

(** C6: on the four lifecycle status values the Workflows page
    [getStatusBadge] returns four class strings, those of [active],
    [paused] and [archived] pairwise distinct, and on any string outside
    the four it returns the class string of [draft]. *)
Theorem workflows_getStatusBadge_cases :
  let badge := Workflows.getStatusBadge in
  badge "draft" = Workflows.baseClasses +:+ " bg-gray-100 text-gray-800"
  ∧ badge "active" = Workflows.baseClasses +:+ " bg-green-100 text-green-800"
  ∧ badge "paused" = Workflows.baseClasses +:+ " bg-yellow-100 text-yellow-800"
  ∧ badge "archived" = Workflows.baseClasses +:+ " bg-red-100 text-red-800"
  ∧ badge "active" ≠ badge "paused"
  ∧ badge "active" ≠ badge "archived"
  ∧ badge "paused" ≠ badge "archived"
  ∧ ∀ status : string,
      status ∉ Workflows.lifecycle_statuses → badge status = badge "draft".
Proof.
  cbv zeta. repeat split; try reflexivity; try (vm_compute; discriminate).
  intros status Hout. unfold Workflows.lifecycle_statuses in Hout.
  unfold Workflows.getStatusBadge at 1.
  repeat case_decide; subst; try reflexivity; exfalso; apply Hout; set_solver.
Qed.

Lemma workflows_getStatusBadge_cases_witness :
  Workflows.getStatusBadge "deleted" = Workflows.getStatusBadge "draft".
Proof.
  apply workflows_getStatusBadge_cases.
  unfold Workflows.lifecycle_statuses. intros Hin.
  repeat (apply elem_of_cons in Hin as [Hin|Hin]; [discriminate Hin|]).
  by apply elem_of_nil in Hin.
Defined.

(** C7: on each of the six execution status values surfaced externally the
    Dashboard's [getStatusBadge] and [getStatusIcon] return a defined,
    non-empty result: a non-empty class string, and an icon element with a
    non-empty component and class name. *)
Theorem dashboard_status_helpers_total (status : string) :
  status ∈ Dashboard.execution_statuses →
  Dashboard.getStatusBadge status ≠ ""
  ∧ Dashboard.component (Dashboard.getStatusIcon status) ≠ ""
  ∧ Dashboard.className (Dashboard.getStatusIcon status) ≠ "".
Proof.
  unfold Dashboard.execution_statuses. intros Hin.
  repeat (apply elem_of_cons in Hin as [->|Hin];
          [vm_compute; repeat split; discriminate|]).
  by apply elem_of_nil in Hin.
Qed.

Lemma dashboard_status_helpers_total_witness :
  Dashboard.getStatusBadge "cancelled" ≠ ""
  ∧ Dashboard.component (Dashboard.getStatusIcon "cancelled") ≠ ""
  ∧ Dashboard.className (Dashboard.getStatusIcon "cancelled") ≠ "".
Proof.
  apply dashboard_status_helpers_total.
  unfold Dashboard.execution_statuses. do 5 apply list_elem_of_further.
  apply list_elem_of_here.
Defined.

End BadgeFacts.

(* ===================================================================== *)
(** ** Facts about the Dashboard page *)
(* ===================================================================== *)

Module DashboardFacts.
Import Js Axios Payload Api Dashboard.

Lemma response_interceptor_id {A} (p : promise A) : response_interceptor p = p.
Proof. by destruct p. Qed.

Lemma fetch_all_unfold (srv : backend) (w : wire) :
  fetch_all srv w =
    (Promise_all5 (answer_workflows srv workflows_request)
                  (answer_executions srv executions_request)
                  (answer_agents srv agents_request)
                  (answer_tools srv tools_request)
                  (answer_health srv health_request),
     w ++ [workflows_request; executions_request; agents_request;
           tools_request; health_request]).
Proof.
  unfold fetch_all, bind, ret, workflowsApi.getAll, executionsApi.getAll,
    agentsApi.getAll, toolsApi.getAll, healthApi.checkDetailedHealth, dispatch.
  rewrite !response_interceptor_id, <- !app_assoc. reflexivity.
Qed.

Lemma Promise_all5_resolved {A B C D E} (a : promise A) (b : promise B)
    (c : promise C) (d : promise D) (e : promise E) v :
  Promise_all5 a b c d e = Resolved v ↔
  a = Resolved v.1.1.1.1 ∧ b = Resolved v.1.1.1.2 ∧ c = Resolved v.1.1.2
  ∧ d = Resolved v.1.2 ∧ e = Resolved v.2.
Proof.
  destruct v as [[[[a' b'] c'] d'] e']; cbn. split.
  - destruct a, b, c, d, e; cbn; intros H; try discriminate H.
    by injection H as -> -> -> -> ->.
  - by intros (-> & -> & -> & -> & ->).
Qed.

(** The state after one run, when all five requests are answered. *)
Lemma fetch_resolved (srv : backend) (st : state) (w : wire)
    workflowsRes executionsRes agentsRes toolsRes healthRes :
  (fetch_all srv w).1 =
    Resolved (workflowsRes, executionsRes, agentsRes, toolsRes, healthRes) →
  (fetchDashboardData srv st w).1 =
    {| st_stats := {| workflows := length workflowsRes;
                      executions := length executionsRes;
                      agents := length agentsRes;
                      tools := or_zero (tools_count toolsRes) |};
       recentExecutions := slice executionsRes 0 5;
       healthStatus := Some healthRes;
       loading := false |}.
Proof.
  intros H. unfold fetchDashboardData, bind, ret.
  destruct (fetch_all srv w) as [settled w']. cbn in H. subst settled.
  reflexivity.
Qed.

(** The state after one run, when one of the five requests fails: only
    [loading] changes. *)
Lemma fetch_rejected (srv : backend) (st : state) (w : wire) reason :
  (fetch_all srv w).1 = Rejected reason →
  (fetchDashboardData srv st w).1 = setLoading false st.
Proof.
  intros H. unfold fetchDashboardData, bind, ret.
  destruct (fetch_all srv w) as [settled w']. cbn in H. subst settled.
  reflexivity.
Qed.

Lemma slice_0 {A} (l : list A) (n : nat) :
  slice l 0 n = take (n `min` length l) l.
Proof.
  unfold slice. rewrite drop_0, Nat.sub_0_r.
  destruct (decide (n ≤ length l)).
  - by rewrite Nat.min_l.
  - rewrite Nat.min_r by lia. by rewrite !take_ge by lia.
Qed.


Lemma fetch_cases (srv : backend) (st : state) (w : wire) :
  (∃ wr er ar tr hr,
      answer_workflows srv workflows_request = Resolved wr
      ∧ answer_executions srv executions_request = Resolved er
      ∧ answer_agents srv agents_request = Resolved ar
      ∧ (fetch_all srv w).1 = Resolved (wr, er, ar, tr, hr))
  ∨ (∃ reason, (fetch_all srv w).1 = Rejected reason).
Proof.
  rewrite fetch_all_unfold. cbn [fst].
  destruct (Promise_all5 _ _ _ _ _) as [[[[[wr er] ar] tr] hr]|reason] eqn:E.
  - left. exists wr, er, ar, tr, hr.
    apply Promise_all5_resolved in E. cbn in E.
    destruct E as (Hw & He & Ha & _ & _). by repeat split.
  - right. by exists reason.
Qed.

(** What a reachable state holds: counters and recent list are either the
    initial ones or come from a run in which all five requests were
    answered. *)
Lemma reachable_inv (srv : backend) (st : state) :
  reachable srv st →
  (st_stats st = st_stats initial ∧ recentExecutions st = [])
  ∨ (∃ wr er ar,
        answer_workflows srv workflows_request = Resolved wr
        ∧ answer_executions srv executions_request = Resolved er
        ∧ answer_agents srv agents_request = Resolved ar
        ∧ workflows (st_stats st) = length wr
        ∧ agents (st_stats st) = length ar
        ∧ recentExecutions st = slice er 0 5).
Proof.
  induction 1 as [|st w _ IH]; [by left|].
  destruct (fetch_cases srv st w) as
    [(wr & er & ar & tr & hr & Hw & He & Ha & Hall)|[reason Hrej]].
  - right. exists wr, er, ar.
    rewrite (fetch_resolved srv st w _ _ _ _ _ Hall). by cbn.
  - rewrite (fetch_rejected srv st w _ Hrej). exact IH.
Qed.

(** C8 (as stated, refuted): the displayed Workflows count is not always
    the length of the list the [limit: 1] request returned: when the
    health request of the same run fails, the list of one workflow is
    dropped and the counter stays at 0. *)
Lemma counts_not_always_lengths :
  ¬ (∀ (srv : backend) (items : list workflow),
       answer_workflows srv workflows_request = Resolved items →
       workflows (st_stats (fetchDashboardData srv initial []).1)
         = length items).
Proof.
  intros H.
  specialize (H (Fixtures.backend_with false "") _ eq_refl).
  vm_compute in H. discriminate H.
Qed.

(** C8 (amended): one run of [fetchDashboardData] asks for workflows and
    agents with params [{limit: 1}]; when all five requests of the run
    succeed the displayed Workflows and Agents counts are the lengths of
    the two lists returned, and when one fails the counts keep their
    value; so whenever the server honours the limit parameter, each of the
    two displayed counts is at most 1, however many workflows or agents
    exist. *)
Theorem dashboard_counts_at_most_one (srv : backend) :
  (∀ st w, (fetchDashboardData srv st w).2 =
             w ++ [workflows_request; executions_request; agents_request;
                   tools_request; health_request])
  ∧ req_params workflows_request = [("limit", JNum 1)]
  ∧ req_params agents_request = [("limit", JNum 1)]
  ∧ (∀ st w wr er ar tr hr,
       answer_workflows srv workflows_request = Resolved wr →
       answer_executions srv executions_request = Resolved er →
       answer_agents srv agents_request = Resolved ar →
       answer_tools srv tools_request = Resolved tr →
       answer_health srv health_request = Resolved hr →
       let st' := (fetchDashboardData srv st w).1 in
       render st' = Page (Some hr) (st_stats st') (render_recent st')
       ∧ workflows (st_stats st') = length wr
       ∧ agents (st_stats st') = length ar)
  ∧ (∀ st w reason,
       (fetch_all srv w).1 = Rejected reason →
       st_stats (fetchDashboardData srv st w).1 = st_stats st)
  ∧ (honours_limit (answer_workflows srv) →
     honours_limit (answer_agents srv) →
     ∀ st, reachable srv st →
       workflows (st_stats st) ≤ 1 ∧ agents (st_stats st) ≤ 1).
Proof.
  split; [|split; [reflexivity|split; [reflexivity|split; [|split]]]].
  - intros st w. unfold fetchDashboardData, bind, ret.
    pose proof (fetch_all_unfold srv w) as E.
    destruct (fetch_all srv w) as [settled w']. by injection E as _ ->.
  - intros st w wr er ar tr hr Hw He Ha Ht Hh st'. subst st'.
    rewrite (fetch_resolved srv st w wr er ar tr hr); [by cbn|].
    rewrite fetch_all_unfold. cbn [fst]. by rewrite Hw, He, Ha, Ht, Hh.
  - intros st w reason Hrej. by rewrite (fetch_rejected srv st w _ Hrej).
  - intros HW HA st Hst.
    destruct (reachable_inv srv st Hst) as
      [[-> _]|(wr & er & ar & Hw & _ & Ha & -> & -> & _)]; [cbn; lia|].
    split.
    + by apply (HW workflows_request 1 wr).
    + by apply (HA agents_request 1 ar).
Qed.

Lemma honours_limit_take {A} (db : list A) :
  honours_limit (λ r, Resolved (take (Fixtures.limit_of r) db)).
Proof.
  intros r n items Hlim [= <-]. unfold Fixtures.limit_of. rewrite Hlim.
  rewrite length_take, Nat2Z.id. lia.
Qed.

Lemma dashboard_counts_at_most_one_witness :
  let st := (fetchDashboardData (Fixtures.backend_with true "") initial []).1 in
  (workflows (st_stats st) = 1 ∧ agents (st_stats st) = 1)
  ∧ (workflows (st_stats st) ≤ 1 ∧ agents (st_stats st) ≤ 1).
Proof.
  pose proof (dashboard_counts_at_most_one (Fixtures.backend_with true ""))
    as (_ & _ & _ & Hok & _ & Hbound).
  destruct (Hok initial [] _ _ _ _ _ eq_refl eq_refl eq_refl eq_refl eq_refl)
    as (_ & Hw & Ha).
  split.
  - split; [exact Hw | exact Ha].
  - apply Hbound.
    + apply honours_limit_take.
    + apply honours_limit_take.
    + apply reachable_fetch, reachable_initial.
Defined.


(** C9 (as stated, refuted): the Recent Executions state is not always the
    first five of the list the executions request returned: when the
    health request of the same run fails, the returned executions are
    dropped and the list stays empty. *)
Lemma recent_not_always_first_five :
  ¬ (∀ (srv : backend) (items : list execution),
       answer_executions srv executions_request = Resolved items →
       recentExecutions (fetchDashboardData srv initial []).1
         = take (5 `min` length items) items).
Proof.
  intros H.
  specialize (H (Fixtures.backend_with false "") _ eq_refl).
  vm_compute in H. discriminate H.
Qed.

(** C9 (amended): when all five requests of a run of [fetchDashboardData]
    succeed, the Recent Executions state equals the first
    [min(5, length)] elements of the list the executions request
    returned, in their original order; when one of the five fails the
    Recent Executions state is left unchanged; so at most five recent
    executions are ever displayed. *)
Theorem recent_executions_first_five (srv : backend) :
  (∀ st w wr er ar tr hr,
     answer_workflows srv workflows_request = Resolved wr →
     answer_executions srv executions_request = Resolved er →
     answer_agents srv agents_request = Resolved ar →
     answer_tools srv tools_request = Resolved tr →
     answer_health srv health_request = Resolved hr →
     let st' := (fetchDashboardData srv st w).1 in
     recentExecutions st' = take (5 `min` length er) er
     ∧ recentExecutions st' `prefix_of` er)
  ∧ (∀ st w reason,
       (fetch_all srv w).1 = Rejected reason →
       recentExecutions (fetchDashboardData srv st w).1 = recentExecutions st)
  ∧ (∀ st, reachable srv st →
       length (recentExecutions st) ≤ 5
       ∧ match render_recent st with
         | RecentList rows =>
             length rows ≤ 5 ∧ rows = render_row <$> recentExecutions st
         | NoExecutionsYet => recentExecutions st = []
         end).
Proof.
  split; [|split].
  - intros st w wr er ar tr hr Hw He Ha Ht Hh st'. subst st'.
    rewrite (fetch_resolved srv st w wr er ar tr hr).
    + cbn [recentExecutions]. rewrite slice_0. split; [done|].
      apply prefix_take.
    + rewrite fetch_all_unfold. cbn [fst]. by rewrite Hw, He, Ha, Ht, Hh.
  - intros st w reason Hrej. by rewrite (fetch_rejected srv st w _ Hrej).
  - intros st Hst.
    assert (length (recentExecutions st) ≤ 5) as Hlen.
    { destruct (reachable_inv srv st Hst) as
        [[_ ->]|(wr & er & ar & _ & _ & _ & _ & _ & ->)]; [cbn; lia|].
      rewrite slice_0, length_take. lia. }
    split; [exact Hlen|]. unfold render_recent. case_decide.
    + by rewrite length_fmap.
    + destruct (recentExecutions st); [done|cbn in *; lia].
Qed.

Lemma recent_executions_first_five_witness :
  let srv := Fixtures.backend_with true "" in
  let st := (fetchDashboardData srv initial []).1 in
  recentExecutions st = take 5 Fixtures.stored_executions
  ∧ length (recentExecutions st) ≤ 5.
Proof.
  intros srv st.
  pose proof (recent_executions_first_five srv) as (Hok & _ & Hbound).
  destruct (Hok initial [] _ _ _ _ _ eq_refl eq_refl eq_refl eq_refl eq_refl)
    as (Hrecent & _).
  split.
  - exact Hrecent.
  - apply Hbound, reachable_fetch, reachable_initial.
Defined.

End DashboardFacts.

(* ===================================================================== *)
(** ** Facts about the Workflows page *)
(* ===================================================================== *)

Module WorkflowsFacts.
Import Js Axios Payload Api Workflows.

Lemma handleDelete_unfold (srv : backend) (rendered : state) (id : string)
    (w : wire) :
  handleDelete srv rendered true id w =
    (λ st,
       match answer srv (delete_request id) with
       | Resolved _ =>
           (setWorkflows (filter (λ x, wf_id x ≠ id) (workflows rendered)) st,
            [])
       | Rejected _ => (st, ["Failed to delete workflow"])
       end, w ++ [delete_request id]).
Proof.
  unfold handleDelete, bind, ret, workflowsApi.delete, dispatch.
  fold (delete_request id).
  by destruct (answer srv (delete_request id)).
Qed.

Lemma delete_and_settle_unfold (srv : backend) (id : string) (st : state)
    (w : wire) :
  delete_and_settle srv true id st w =
    (match answer srv (delete_request id) with
     | Resolved _ =>
         (setWorkflows (filter (λ x, wf_id x ≠ id) (workflows st)) st, [])
     | Rejected _ => (st, ["Failed to delete workflow"])
     end, w ++ [delete_request id]).
Proof.
  unfold delete_and_settle, bind, ret. by rewrite handleDelete_unfold.
Qed.

Lemma delete_overlapping_unfold (srv : backend) (id1 id2 : string)
    (st : state) (w : wire) (body1 body2 : json) :
  answer srv (delete_request id1) = Resolved body1 →
  answer srv (delete_request id2) = Resolved body2 →
  delete_overlapping srv id1 id2 st w =
    ((setWorkflows (filter (λ x, wf_id x ≠ id1) (workflows st)) st,
      setWorkflows (filter (λ x, wf_id x ≠ id2) (workflows st)) st),
     w ++ [delete_request id1; delete_request id2]).
Proof.
  intros Hok1 Hok2. unfold delete_overlapping, bind, ret.
  rewrite !handleDelete_unfold, Hok1, Hok2. cbn [fst].
  by rewrite <- app_assoc.
Qed.

Lemma filter_excluded {A} (P Q : A → Prop) `{!∀ x, Decision (P x)}
    `{!∀ x, Decision (Q x)} (l : list A) :
  (∀ x, P x → ¬ Q x) → filter P (filter Q l) = [].
Proof.
  intros Hex. induction l as [|x l IH]; [done|].
  rewrite (filter_cons Q). case_decide as HQ; [|exact IH].
  rewrite filter_cons_False; [exact IH|]. intros HP. by apply (Hex x).
Qed.

(** A deletion that is answered before anything else happens removes the
    entries of that id from the list and nothing else; a failed one
    leaves the state as it is. *)
Lemma delete_and_settle_removes_only_id (srv : backend) (id : string)
    (st : state) (w : wire) :
  (∀ body, answer srv (delete_request id) = Resolved body →
     let st' := (delete_and_settle srv true id st w).1.1 in
     workflows st' = filter (λ x, wf_id x ≠ id) (workflows st)
     ∧ filter (λ x, wf_id x = id) (workflows st') = []
     ∧ filter (λ x, wf_id x ≠ id) (workflows st')
         = filter (λ x, wf_id x ≠ id) (workflows st)
     ∧ workflows st' `sublist_of` workflows st
     ∧ loading st' = loading st ∧ error st' = error st)
  ∧ (∀ reason, answer srv (delete_request id) = Rejected reason →
       (delete_and_settle srv true id st w).1.1 = st).
Proof.
  rewrite delete_and_settle_unfold. split.
  - intros body ->. cbn. repeat split.
    + apply filter_excluded. naive_solver.
    + by apply list_filter_filter_l.
    + apply sublist_filter.
  - by intros reason ->.
Qed.

(** C10 (the code misses it): the page lists wf-1, wf-2 and wf-3; the user
    confirms the deletion of wf-1 and, before it is answered, that of
    wf-2; both requests succeed.  After the first answer the state is
    wf-2, wf-3.  After the second it is wf-1, wf-3 -- the list of the
    render the clicks were made on, without wf-2 -- and not the previous
    state without wf-2, which is wf-3 alone: the row of wf-1, deleted on
    the server, is back. *)
Theorem handleDelete_overlapping_restores_row :
  let srv := Fixtures.backend_with true "" in
  let st := setLoading false (setWorkflows Fixtures.stored_workflows initial) in
  let run := delete_overlapping srv "wf-1" "wf-2" st [] in
  let after_first := run.1.1 in
  let after_second := run.1.2 in
  run.2 = [delete_request "wf-1"; delete_request "wf-2"]
  ∧ wf_id <$> workflows after_first = ["wf-2"; "wf-3"]
  ∧ wf_id <$> workflows after_second = ["wf-1"; "wf-3"]
  ∧ wf_id <$> filter (λ x, wf_id x ≠ "wf-2") (workflows after_first)
      = ["wf-3"]
  ∧ workflows after_second
      ≠ filter (λ x, wf_id x ≠ "wf-2") (workflows after_first).
Proof.
  intros srv st run after_first after_second.
  split; [reflexivity|]. split; [reflexivity|]. split; [reflexivity|].
  split; [reflexivity|].
  intros Heq. apply (f_equal length) in Heq. vm_compute in Heq.
  discriminate Heq.
Qed.

End WorkflowsFacts.

(* ===================================================================== *)
(** ** More facts about the API layer *)
(* ===================================================================== *)

Module ApiCallsFacts.
Import Js Axios Payload Api ApiCalls.

Lemma full_path_under (r : request) (resource rest : string) :
  resource ∈ ["health"; "workflows"; "executions"; "agents"; "tools"] →
  req_url r = "/" +:+ resource +:+ "/" +:+ rest →
  full_path api r = "/api/v1/" +:+ resource +:+ "/" +:+ rest.
Proof.
  intros Hres Hurl. unfold full_path. rewrite Hurl.
  repeat (apply elem_of_cons in Hres as [->|Hres]; [reflexivity|]).
  by apply elem_of_nil in Hres.
Qed.

(** X1: every function of [healthApi], [workflowsApi], [agentsApi] and
    [toolsApi] issues exactly one request, and its path lies under
    [/api/v1/health], [/api/v1/workflows], [/api/v1/agents] and
    [/api/v1/tools] respectively; the health and tools functions only
    read (GET). *)
Theorem api_objects_stay_in_their_resource (srv : backend) :
  (∀ k, ∃ r, issued (call_health srv k) = [r]
             ∧ req_method r = GET
             ∧ String.prefix "/api/v1/health" (full_path api r) = true)
  ∧ (∀ k a, ∃ r, issued (call_workflows srv k a) = [r]
                 ∧ String.prefix "/api/v1/workflows" (full_path api r) = true)
  ∧ (∀ k a, ∃ r, issued (call_agents srv k a) = [r]
                 ∧ String.prefix "/api/v1/agents" (full_path api r) = true)
  ∧ (∀ k a, ∃ r, issued (call_tools srv k a) = [r]
                 ∧ req_method r = GET
                 ∧ String.prefix "/api/v1/tools" (full_path api r) = true).
Proof.
  repeat split.
  - intros []; eexists; (split; [reflexivity|]); by split.
  - intros [] a; eexists; (split; [reflexivity|]);
      (erewrite (full_path_under _ "workflows");
       cycle 1; [set_solver|reflexivity|reflexivity]).
  - intros [] a; eexists; (split; [reflexivity|]);
      (erewrite (full_path_under _ "agents");
       cycle 1; [set_solver|reflexivity|reflexivity]).
  - intros [] a; eexists; (split; [reflexivity|]); (split; [reflexivity|]);
      (erewrite (full_path_under _ "tools");
       cycle 1; [set_solver|reflexivity|reflexivity]).
Qed.







(** X3: the ids are put into the path as they are, without escaping: for
    every id, [getById] called with the id followed by [/status],
    [/interactions] or [/logs] issues the very request of [getStatus],
    [getInteractions] or [getLogs] for that id, and [getById] with the
    empty id issues the request of [getAll] without parameters. *)
Theorem ids_are_not_escaped (srv : backend) (id : string) (w : wire) :
  (executionsApi.getById srv (id +:+ "/status") w).2
    = (executionsApi.getStatus srv id w).2
  ∧ (executionsApi.getById srv (id +:+ "/interactions") w).2
    = (executionsApi.getInteractions srv id w).2
  ∧ (executionsApi.getById srv (id +:+ "/logs") w).2
    = (executionsApi.getLogs srv id w).2
  ∧ (executionsApi.getById srv "" w).2 = (executionsApi.getAll srv [] w).2.
Proof. repeat split. Qed.

End ApiCallsFacts.

(* ===================================================================== *)
(** ** More facts about the Dashboard page *)
(* ===================================================================== *)

Module DashboardMoreFacts.
Import Js Axios Payload Api ApiCalls Dashboard DashboardView DashboardFacts.

Lemma fetch_all_wire_free (srv : backend) (w w' : wire) :
  (fetch_all srv w).1 = (fetch_all srv w').1.
Proof. by rewrite !fetch_all_unfold. Qed.

Lemma fetch_loading (srv : backend) (st : state) (w : wire) :
  loading (fetchDashboardData srv st w).1 = false.
Proof.
  destruct (fetch_cases srv st w) as
    [(wr & er & ar & tr & hr & _ & _ & _ & Hall)|[reason Hrej]].
  - by rewrite (fetch_resolved srv st w _ _ _ _ _ Hall).
  - by rewrite (fetch_rejected srv st w _ Hrej).
Qed.

(** X4: whatever the backend answers, a run of [fetchDashboardData] sends
    exactly five GET requests, to [/api/v1/workflows/],
    [/api/v1/executions/], [/api/v1/agents/], [/api/v1/tools/] and
    [/api/v1/health/detailed] in this order, and ends with [loading] off:
    the page is rendered, never the skeleton. *)
Theorem fetch_sends_five_and_stops_loading (srv : backend) (st : state)
    (w : wire) :
  ∃ r1 r2 r3 r4 r5,
    (fetchDashboardData srv st w).2 = w ++ [r1; r2; r3; r4; r5]
    ∧ route_paths [r1; r2; r3; r4; r5] =
        [(GET, "/api/v1/workflows/"); (GET, "/api/v1/executions/");
         (GET, "/api/v1/agents/"); (GET, "/api/v1/tools/");
         (GET, "/api/v1/health/detailed")]
    ∧ loading (fetchDashboardData srv st w).1 = false
    ∧ render (fetchDashboardData srv st w).1 ≠ Skeleton.
Proof.
  exists workflows_request, executions_request, agents_request,
    tools_request, health_request.
  split; [|split; [reflexivity|split]].
  - unfold fetchDashboardData, bind, ret.
    pose proof (fetch_all_unfold srv w) as E.
    destruct (fetch_all srv w) as [settled w']. by injection E as _ ->.
  - apply fetch_loading.
  - unfold render. by rewrite fetch_loading.
Qed.


Lemma Promise_all5_rejected {A B C D E} (a : promise A) (b : promise B)
    (c : promise C) (d : promise D) (e : promise E) :
  (∃ reason, a = Rejected reason) ∨ (∃ reason, b = Rejected reason)
  ∨ (∃ reason, c = Rejected reason) ∨ (∃ reason, d = Rejected reason)
  ∨ (∃ reason, e = Rejected reason) →
  ∃ reason, Promise_all5 a b c d e = Rejected reason.
Proof.
  intros H. destruct a, b, c, d, e; cbn; eauto.
  destruct H as [[? H]|[[? H]|[[? H]|[[? H]|[? H]]]]]; discriminate H.
Qed.

(** X5: when one of the five requests of the first run fails, nothing
    tells the user: the page shows no health banner, four counters at 0 and
    "No executions yet", whatever the other four requests returned. *)
Theorem first_fetch_failure_is_silent (srv : backend) (w : wire) :
  (∃ reason, answer_workflows srv workflows_request = Rejected reason)
  ∨ (∃ reason, answer_executions srv executions_request = Rejected reason)
  ∨ (∃ reason, answer_agents srv agents_request = Rejected reason)
  ∨ (∃ reason, answer_tools srv tools_request = Rejected reason)
  ∨ (∃ reason, answer_health srv health_request = Rejected reason) →
  render (fetchDashboardData srv initial w).1
    = Page None zero_stats NoExecutionsYet.
Proof.
  intros Hfail. apply Promise_all5_rejected in Hfail as [reason Hrej].
  rewrite (fetch_rejected srv initial w reason); [done|].
  by rewrite fetch_all_unfold.
Qed.

Lemma first_fetch_failure_is_silent_witness :
  render (fetchDashboardData (Fixtures.backend_with false "") initial []).1
    = Page None zero_stats NoExecutionsYet.
Proof.
  apply first_fetch_failure_is_silent.
  do 4 right. eexists. reflexivity.
Defined.

(** X6: refreshing is stable: against the same backend, a second run of
    [fetchDashboardData] leaves the state of the first run as it is. *)
Theorem fetch_twice_is_fetch_once (srv : backend) (st : state)
    (w w' : wire) :
  (fetchDashboardData srv (fetchDashboardData srv st w).1 w').1
    = (fetchDashboardData srv st w).1.
Proof.
  destruct (fetch_cases srv st w) as
    [(wr & er & ar & tr & hr & _ & _ & _ & Hall)|[reason Hrej]].
  - rewrite (fetch_resolved srv st w _ _ _ _ _ Hall).
    rewrite (fetch_all_wire_free srv w w') in Hall.
    by rewrite (fetch_resolved srv _ w' _ _ _ _ _ Hall).
  - rewrite (fetch_rejected srv st w _ Hrej).
    rewrite (fetch_all_wire_free srv w w') in Hrej.
    by rewrite (fetch_rejected srv _ w' _ Hrej).
Qed.

(** X7: the Executions counter and the Recent Executions list always
    agree: in every state the component can reach, the list holds
    [min(5, counter)] executions; and when the server honours the limit
    parameter the counter is at most 10. *)
Theorem executions_counter_matches_list (srv : backend) (st : state) :
  reachable srv st →
  length (recentExecutions st) = 5 `min` executions (st_stats st)
  ∧ (honours_limit (answer_executions srv) → executions (st_stats st) ≤ 10).
Proof.
  induction 1 as [|st w _ [IHlen IHlim]].
  { split; [reflexivity|intros _; cbn; lia]. }
  destruct (fetch_cases srv st w) as
    [(wr & er & ar & tr & hr & _ & He & _ & Hall)|[reason Hrej]].
  - rewrite (fetch_resolved srv st w _ _ _ _ _ Hall).
    cbn [recentExecutions st_stats executions]. split.
    + rewrite slice_0, length_take. lia.
    + intros Hlim. by apply (Hlim executions_request 10 er).
  - by rewrite (fetch_rejected srv st w _ Hrej).
Qed.

Lemma executions_counter_matches_list_witness :
  let srv := Fixtures.backend_with true "" in
  let st := (fetchDashboardData srv initial []).1 in
  length (recentExecutions st) = 5 ∧ executions (st_stats st) = 7.
Proof.
  intros srv st.
  destruct (executions_counter_matches_list srv st) as [Hlen _].
  { apply reachable_fetch, reachable_initial. }
  split; [|reflexivity]. rewrite Hlen. reflexivity.
Defined.


(** X8: among the six execution status values, the badge tells all apart
    except [pending] and [cancelled], which share the draft style; the
    icon tells [completed], [failed] and [running] apart and shows the
    same grey clock for [pending], [paused] and [cancelled]. *)
Theorem status_styles_partition (s1 s2 : string) :
  s1 ∈ execution_statuses → s2 ∈ execution_statuses →
  (getStatusBadge s1 = getStatusBadge s2 ↔
     s1 = s2 ∨ (s1 ∈ ["pending"; "cancelled"] ∧ s2 ∈ ["pending"; "cancelled"]))
  ∧ (getStatusIcon s1 = getStatusIcon s2 ↔
       s1 = s2 ∨ (s1 ∈ ["pending"; "paused"; "cancelled"]
                  ∧ s2 ∈ ["pending"; "paused"; "cancelled"])).
Proof.
  unfold execution_statuses. intros H1 H2.
  repeat (apply elem_of_cons in H1 as [->|H1]);
    try (by apply elem_of_nil in H1);
    repeat (apply elem_of_cons in H2 as [->|H2]);
    try (by apply elem_of_nil in H2);
    by apply (bool_decide_unpack _).
Qed.

Lemma status_styles_partition_witness :
  getStatusBadge "pending" = getStatusBadge "cancelled"
  ∧ getStatusIcon "paused" = getStatusIcon "cancelled"
  ∧ getStatusBadge "paused" ≠ getStatusBadge "cancelled".
Proof.
  assert ("pending" ∈ execution_statuses) as Hpending
    by apply list_elem_of_here.
  assert ("paused" ∈ execution_statuses) as Hpaused
    by (do 2 apply list_elem_of_further; apply list_elem_of_here).
  assert ("cancelled" ∈ execution_statuses) as Hcancelled
    by (do 5 apply list_elem_of_further; apply list_elem_of_here).
  destruct (status_styles_partition "pending" "cancelled" Hpending Hcancelled)
    as [Hbadge _].
  destruct (status_styles_partition "paused" "cancelled" Hpaused Hcancelled)
    as [Hbadge' Hicon].
  split; [|split].
  - apply Hbadge. right. split.
    + apply list_elem_of_here.
    + apply list_elem_of_further, list_elem_of_here.
  - apply Hicon. right. split.
    + apply list_elem_of_further, list_elem_of_here.
    + do 2 apply list_elem_of_further. apply list_elem_of_here.
  - intros Heq. apply Hbadge' in Heq as [Heq|[Hin _]]; [discriminate Heq|].
    repeat (apply elem_of_cons in Hin as [Hin|Hin]; [discriminate Hin|]).
    by apply elem_of_nil in Hin.
Defined.

Lemma string_length_app (s t : string) :
  String.length (s +:+ t) = String.length s + String.length t.
Proof. induction s as [|c s IH]; simpl; [done|by f_equal]. Qed.

Lemma substring_whole (m : nat) (s : string) :
  String.length s ≤ m → String.substring 0 m s = s.
Proof.
  revert m. induction s as [|c s IH]; intros [|m]; cbn; try done; try lia.
  intros Hle. rewrite IH; [done|lia].
Qed.

Lemma substring_tail (k m : nat) (s : string) :
  String.length s ≤ k + m →
  ∃ head, s = head +:+ String.substring k m s
          ∧ String.length head = k `min` String.length s.
Proof.
  revert s. induction k as [|k IH]; intros s Hle.
  - exists "". by rewrite substring_whole.
  - destruct s as [|c s]; [by exists ""; destruct m|].
    cbn in Hle. destruct (IH s) as (head & Heq & Hlen); [lia|].
    exists (String c head). split; simpl; [|by rewrite Hlen].
    change (String c s = String c (head +:+ String.substring k m s)).
    by f_equal.
Qed.

(** X9: a row of the Recent Executions list is keyed by the execution id
    and titled "Execution " followed by the last eight characters of the
    id, or by the whole id when it has at most eight. *)
Theorem recent_row_shows_id_tail (execution : Payload.execution) :
  row_key (render_row execution) = ex_id execution
  ∧ ∃ head tail,
      row_title (render_row execution) = "Execution " +:+ tail
      ∧ ex_id execution = head +:+ tail
      ∧ String.length tail = 8 `min` String.length (ex_id execution)
      ∧ (String.length (ex_id execution) ≤ 8 → tail = ex_id execution).
Proof.
  split; [done|]. cbn [render_row row_title]. unfold str_slice_last.
  set (id := ex_id execution).
  destruct (substring_tail (String.length id - 8) 8 id) as (head & Heq & Hlen);
    [lia|].
  exists head, (String.substring (String.length id - 8) 8 id).
  split; [done|]. split; [done|]. split.
  - apply (f_equal String.length) in Heq.
    rewrite string_length_app, Hlen in Heq. lia.
  - intros Hshort. replace (String.length id - 8) with 0 by lia.
    by apply substring_whole.
Qed.

Lemma recent_row_shows_id_tail_witness :
  row_title (render_row (Fixtures.mk_execution "ex-1" "running"))
    = "Execution ex-1".
Proof.
  destruct (recent_row_shows_id_tail (Fixtures.mk_execution "ex-1" "running"))
    as (_ & head & tail & Htitle & _ & _ & Hshort).
  rewrite Htitle, Hshort; [reflexivity|]. cbn. lia.
Defined.

(** X10: the colours of the health banner always agree: box, icon and
    heading are green exactly when the status is the string [healthy] and
    red for any other status; and each of the three detail lines shows a
    value, [unknown] standing in for a missing or empty one. *)
Theorem health_banner_colours_agree (h : health_info) :
  let b := render_banner h in
  (health_status h = "healthy" →
     box_class b = "rounded-md p-4 bg-green-50 border border-green-200"
     ∧ banner_icon b = {| component := "CheckCircleIcon";
                          className := "h-5 w-5 text-green-400" |}
     ∧ heading_class b = "text-sm font-medium text-green-800")
  ∧ (health_status h ≠ "healthy" →
       box_class b = "rounded-md p-4 bg-red-50 border border-red-200"
       ∧ banner_icon b = {| component := "ExclamationTriangleIcon";
                            className := "h-5 w-5 text-red-400" |}
       ∧ heading_class b = "text-sm font-medium text-red-800")
  ∧ ∃ database llm tracing,
      details b = ["Database: " +:+ database;
                   "Default LLM Provider: " +:+ llm;
                   "Tracing: " +:+ tracing]
      ∧ database ≠ "" ∧ llm ≠ "" ∧ tracing ≠ ""
      ∧ (health_database h = None ∨ health_database h = Some "" →
         database = "unknown").
Proof.
  cbv zeta. unfold render_banner. cbn. split; [|split].
  - intros Hh. by rewrite !decide_True.
  - intros Hh. by rewrite !decide_False.
  - eexists _, _, _. split; [reflexivity|].
    repeat split.
    + by destruct (health_database h) as [[|]|].
    + by destruct (health_default_llm h) as [[|]|].
    + by destruct (health_tracing h).
    + by intros [->| ->].
Qed.

Lemma health_banner_colours_agree_witness :
  box_class (render_banner {| health_status := "degraded";
                              health_database := Some "";
                              health_default_llm := None;
                              health_tracing := true |})
    = "rounded-md p-4 bg-red-50 border border-red-200".
Proof.
  destruct (health_banner_colours_agree
              {| health_status := "degraded"; health_database := Some "";
                 health_default_llm := None; health_tracing := true |})
    as (_ & Hred & _).
  apply Hred. discriminate.
Defined.

End DashboardMoreFacts.

(* ===================================================================== *)
(** ** More facts about the Workflows page *)
(* ===================================================================== *)

Module WorkflowsMoreFacts.
Import Js Axios Payload Api ApiCalls Workflows WorkflowsView.

Lemma fetchWorkflows_unfold (srv : backend) (st : state) (w : wire) :
  fetchWorkflows srv st w =
    (match answer_workflows srv list_request with
     | Resolved data =>
         {| workflows := data; loading := false; error := error st |}
     | Rejected _ =>
         {| workflows := workflows st; loading := false;
            error := Some "Failed to fetch workflows" |}
     end, w ++ [list_request]).
Proof.
  unfold fetchWorkflows, bind, ret, workflowsApi.getAll, dispatch.
  rewrite DashboardFacts.response_interceptor_id.
  by destruct (answer_workflows srv _).
Qed.

(** Once the fetch error is set and loading is over, no action of the page
    changes either. *)
Lemma error_sticks (a : action) (st : state) (w : wire) :
  loading st = false → error st = Some "Failed to fetch workflows" →
  loading (act a st w).1 = false
  ∧ error (act a st w).1 = Some "Failed to fetch workflows".
Proof.
  intros Hl He. destruct a as [srv|srv confirmed id]; cbn [act].
  - rewrite fetchWorkflows_unfold. cbn [fst].
    by destruct (answer_workflows srv _).
  - unfold bind, ret. destruct confirmed.
    + rewrite WorkflowsFacts.delete_and_settle_unfold.
      by destruct (answer srv _).
    + done.
Qed.

Lemma error_sticks_all (actions : list action) (st : state) (w : wire) :
  loading st = false → error st = Some "Failed to fetch workflows" →
  loading (act_all actions st w).1 = false
  ∧ error (act_all actions st w).1 = Some "Failed to fetch workflows".
Proof.
  revert st w. induction actions as [|a actions IH]; intros st w Hl He;
    [done|].
  cbn [act_all]. unfold bind.
  destruct (error_sticks a st w Hl He) as [Hl' He'].
  destruct (act a st w) as [st' w']. by apply IH.
Qed.

(** X11: a failed fetch is never forgotten: after [fetchWorkflows] has
    failed once, whatever is done on the page afterwards -- further
    fetches through the Retry button, deletions -- the page renders the
    error view; a later fetch that succeeds stores the workflows it got,
    but they are not shown. *)
Theorem failed_fetch_error_sticks (srv : backend) (st : state) (w : wire)
    (reason : string) :
  answer_workflows srv list_request = Rejected reason →
  (∀ later toLocaleDateString,
     render toLocaleDateString (act_all (Fetch srv :: later) st w).1
       = ErrorView "Failed to fetch workflows")
  ∧ (∀ srv' data toLocaleDateString,
       answer_workflows srv' list_request = Resolved data →
       let st' := (act_all [Fetch srv; Fetch srv'] st w).1 in
       workflows st' = data
       ∧ render toLocaleDateString st' = ErrorView "Failed to fetch workflows").
Proof.
  intros Hrej.
  assert (∀ later, let st' := (act_all (Fetch srv :: later) st w).1 in
            loading st' = false
            ∧ error st' = Some "Failed to fetch workflows") as Hafter.
  { intros later. cbn [act_all act]. unfold bind.
    rewrite fetchWorkflows_unfold, Hrej. by apply error_sticks_all. }
  split.
  - intros later fmt. destruct (Hafter later) as [Hl He].
    unfold render. by rewrite Hl, He.
  - intros srv' data fmt Hok st'.
    destruct (Hafter [Fetch srv']) as [Hl He]. fold st' in Hl, He.
    split; [|unfold render; by rewrite Hl, He].
    subst st'. cbn [act_all act]. unfold bind, ret.
    rewrite fetchWorkflows_unfold, Hrej.
    rewrite fetchWorkflows_unfold, Hok. done.
Qed.

Lemma failed_fetch_error_sticks_witness :
  let down := {| answer := λ _, Rejected "Network Error";
                 answer_workflows := λ _, Rejected "Network Error";
                 answer_executions := λ _, Rejected "Network Error";
                 answer_agents := λ _, Rejected "Network Error";
                 answer_tools := λ _, Rejected "Network Error";
                 answer_health := λ _, Rejected "Network Error" |} in
  let up := Fixtures.backend_with true "" in
  let st := (act_all [Fetch down; Fetch up] initial []).1 in
  workflows st = Fixtures.stored_workflows
  ∧ render (λ s, s) st = ErrorView "Failed to fetch workflows".
Proof.
  intros down up st.
  destruct (failed_fetch_error_sticks down initial [] "Network Error" eq_refl)
    as [_ Hretry].
  exact (Hretry up Fixtures.stored_workflows (λ s, s) eq_refl).
Defined.

(** X12: [handleDelete] asks before it acts.  Without the user's
    confirmation it sends nothing, changes nothing and shows no alert;
    with it, it sends exactly one request, a DELETE without body to
    [/api/v1/workflows/{id}], and shows the alert "Failed to delete
    workflow" exactly when that request fails.  This holds on whatever
    render the button was clicked and whatever the state is when the
    answer arrives. *)
Theorem handleDelete_asks_first (srv : backend) (id : string)
    (rendered st : state) (w : wire) :
  ((handleDelete srv rendered false id w).2 = w
   ∧ (handleDelete srv rendered false id w).1 st = (st, []))
  ∧ ∃ r, (handleDelete srv rendered true id w).2 = w ++ [r]
         ∧ route r = (DELETE, "/api/v1/workflows/" +:+ id)
         ∧ req_data r = None ∧ req_params r = []
         ∧ ((handleDelete srv rendered true id w).1 st).2 =
             match answer srv r with
             | Resolved _ => []
             | Rejected _ => ["Failed to delete workflow"]
             end.
Proof.
  split; [done|]. exists (delete_request id).
  rewrite WorkflowsFacts.handleDelete_unfold.
  split; [done|]. split.
  - reflexivity.
  - repeat split. cbn [fst]. by destruct (answer srv _).
Qed.


Lemma filter_partition_length {A} (P : A → Prop) `{!∀ x, Decision (P x)}
    (l : list A) :
  length (filter (λ x, ¬ P x) l) + length (filter P l) = length l.
Proof.
  induction l as [|x l IH]; [done|].
  rewrite !filter_cons. destruct (decide (P x)).
  - rewrite decide_False by tauto. cbn. lia.
  - rewrite decide_True by done. cbn. lia.
Qed.

Lemma filter_all {A} (P : A → Prop) `{!∀ x, Decision (P x)} (l : list A) :
  (∀ x, x ∈ l → P x) → filter P l = l.
Proof.
  induction l as [|x l IH]; [done|]. intros Hall.
  rewrite filter_cons_True by (apply Hall, list_elem_of_here).
  f_equal. apply IH. intros y Hy. by apply Hall, list_elem_of_further.
Qed.

(** X13: deletions that succeed and are answered one at a time behave
    like removals from a list: the list shrinks by the number of entries
    with the deleted id; deleting an id that is not in the list leaves the
    state as it is (the request is sent all the same); deleting the same
    id again changes nothing more; and two deletions give the same state
    in either order.  Two deletions clicked on the same render do not: the
    second answer stores the list of that render without the second id,
    so the entries of the first id are back, and the state differs from
    that of the two deletions made one after the other whenever the first
    id was in the list and the ids differ. *)
Theorem handleDelete_is_removal (srv : backend) (id id' : string)
    (st : state) (w w' : wire) (body body' : json) :
  answer srv (delete_request id) = Resolved body →
  answer srv (delete_request id') = Resolved body' →
  let del := λ i s w, (delete_and_settle srv true i s w).1.1 in
  let both := (delete_overlapping srv id id' st w).1.2 in
  length (workflows (del id st w))
    + length (filter (λ x, wf_id x = id) (workflows st))
    = length (workflows st)
  ∧ ((∀ x, x ∈ workflows st → wf_id x ≠ id) →
     del id st w = st ∧ (delete_and_settle srv true id st w).2 ≠ w)
  ∧ del id (del id st w) w' = del id st w
  ∧ del id' (del id st w) w' = del id (del id' st w) w'
  ∧ workflows both = filter (λ x, wf_id x ≠ id') (workflows st)
  ∧ (id ≠ id' → (∃ x, x ∈ workflows st ∧ wf_id x = id) →
     both ≠ del id' (del id st w) w').
Proof.
  intros Hok Hok' del both. subst del both. cbv beta.
  rewrite (WorkflowsFacts.delete_overlapping_unfold _ _ _ _ _ _ _ Hok Hok').
  rewrite !WorkflowsFacts.delete_and_settle_unfold, ?Hok, ?Hok'.
  cbn [fst snd].
  rewrite ?WorkflowsFacts.delete_and_settle_unfold, ?Hok, ?Hok'.
  cbn [fst snd].
  unfold setWorkflows. cbn [workflows loading error].
  split; [|split; [|split; [|split; [|split]]]].
  - apply (filter_partition_length (λ x, wf_id x = id)).
  - intros Habsent. split.
    + rewrite filter_all by done. by destruct st.
    + intros Heq. apply (f_equal length) in Heq.
      rewrite length_app in Heq. cbn in Heq. lia.
  - f_equal. by apply list_filter_filter_l.
  - f_equal. rewrite !list_filter_filter. apply list_filter_iff. tauto.
  - done.
  - intros Hne (x & Hx & Hid) Heq.
    apply (f_equal workflows) in Heq. cbn [workflows] in Heq.
    assert (x ∈ filter (λ x, wf_id x ≠ id') (workflows st)) as Hin.
    { apply list_elem_of_filter. split; [congruence|done]. }
    rewrite Heq in Hin. apply list_elem_of_filter in Hin as [_ Hin].
    apply list_elem_of_filter in Hin as [Hid' _]. done.
Qed.

Lemma handleDelete_is_removal_witness :
  let srv := Fixtures.backend_with true "" in
  let st := setWorkflows Fixtures.stored_workflows initial in
  (length (workflows (delete_and_settle srv true "wf-1" st []).1.1) + 1 = 3
   ∧ (delete_and_settle srv true "wf-9" st []).1.1 = st)
  ∧ (delete_overlapping srv "wf-1" "wf-2" st []).1.2
    ≠ (delete_and_settle srv true "wf-2"
         (delete_and_settle srv true "wf-1" st []).1.1 []).1.1.
Proof.
  intros srv st.
  destruct (handleDelete_is_removal srv "wf-1" "wf-2" st [] [] JNull JNull
              eq_refl eq_refl) as (Hlen & _ & _ & _ & _ & Hback).
  destruct (handleDelete_is_removal srv "wf-9" "wf-2" st [] [] JNull JNull
              eq_refl eq_refl) as (_ & Habsent & _).
  split; [split; [exact Hlen|]|].
  - apply Habsent.
    intros x Hx. unfold st in Hx. cbn in Hx.
    repeat (apply elem_of_cons in Hx as [->|Hx]; [discriminate|]).
    by apply elem_of_nil in Hx.
  - apply Hback; [discriminate|].
    exists (Fixtures.mk_workflow "wf-1" "triage" "active").
    split; [apply list_elem_of_here|reflexivity].
Defined.


Lemma filter_fmap {A B} (f : A → B) (P : B → Prop) `{!∀ y, Decision (P y)}
    (l : list A) :
  filter P (f <$> l) = f <$> filter (λ x, P (f x)) l.
Proof.
  induction l as [|x l IH]; [done|]. cbn [fmap list_fmap].
  rewrite !filter_cons. case_decide; cbn [fmap list_fmap]; by rewrite IH.
Qed.

Lemma filter_none {A} (P : A → Prop) `{!∀ x, Decision (P x)} (l : list A) :
  (∀ x, x ∈ l → ¬ P x) → filter P l = [].
Proof.
  induction l as [|x l IH]; [done|]. intros Hnone.
  rewrite filter_cons_False by (apply Hnone, list_elem_of_here).
  apply IH. intros y Hy. by apply Hnone, list_elem_of_further.
Qed.

(** In a list without two entries of the same key, a key picks one entry. *)
Lemma filter_key_one {A K} `{EqDecision K} (f : A → K) (l : list A) (a : A) :
  NoDup (f <$> l) → a ∈ l → length (filter (λ x, f x = f a) l) = 1.
Proof.
  induction l as [|x l IH]; intros Hnd Ha; [by apply elem_of_nil in Ha|].
  cbn [fmap list_fmap] in Hnd. apply NoDup_cons in Hnd as [Hfresh Hnd].
  destruct (decide (f x = f a)) as [Heq|Hne].
  - rewrite filter_cons_True by done. rewrite filter_none; [done|].
    intros y Hy Hfy. apply Hfresh. rewrite Heq, <- Hfy.
    by apply list_elem_of_fmap_2.
  - rewrite filter_cons_False by done. apply IH; [done|].
    apply elem_of_cons in Ha as [->|Ha]; done.
Qed.

(** X17: the Delete button of a row takes that row off the table, and
    the last row takes the page with it.  When the page shows a table
    whose rows have different keys, the user confirms the deletion of one
    of its rows, the request succeeds and is answered before anything
    else happens, the next render shows the other rows, unchanged and in
    the same order, one fewer than before; when the deleted row was the
    only one, the render throws a [ReferenceError] instead of showing "No
    workflows". *)
Theorem delete_button_removes_its_row (toLocaleDateString : string → string)
    (srv : backend) (st : state) (w : wire) (rows : list row) (r : row)
    (body : json) :
  render toLocaleDateString st = Table rows →
  NoDup (row_key <$> rows) →
  r ∈ rows →
  answer srv (delete_request (row_delete r)) = Resolved body →
  let rows' := filter (λ x, row_key x ≠ row_key r) rows in
  length rows' + 1 = length rows
  ∧ rows' `sublist_of` rows
  ∧ render toLocaleDateString
      (delete_and_settle srv true (row_delete r) st w).1.1
    = match rows' with
      | [] => Throws (ReferenceError "DocumentTextIcon")
      | _ :: _ => Table rows'
      end.
Proof.
  intros Hview Hkeys Hr Hok rows'. subst rows'.
  split; [|split; [apply sublist_filter|]].
  { pose proof (filter_partition_length (λ x, row_key x = row_key r) rows)
      as Hlen.
    by rewrite (filter_key_one row_key rows r Hkeys Hr) in Hlen. }
  rewrite WorkflowsFacts.delete_and_settle_unfold, Hok. cbn [fst].
  unfold render in *. cbn [loading error workflows setWorkflows].
  destruct (loading st); [discriminate Hview|].
  assert (rows = render_row toLocaleDateString <$> workflows st) as ->.
  { destruct (error st) as [[|]|]; try discriminate Hview;
      case_decide; by simplify_eq. }
  apply list_elem_of_fmap in Hr as (x & -> & Hx).
  cbn [row_delete row_key render_row].
  rewrite (filter_fmap (render_row toLocaleDateString)
             (λ y, row_key y ≠ wf_id x)).
  cbn [row_key render_row].
  destruct (error st) as [[|]|]; try discriminate Hview;
    by destruct (filter _ (workflows st)).
Qed.

Lemma delete_button_removes_its_row_witness :
  let srv := Fixtures.backend_with true "" in
  let show := render_row (λ s, s) in
  let wf1 := Fixtures.mk_workflow "wf-1" "triage" "active" in
  let wf2 := Fixtures.mk_workflow "wf-2" "review" "draft" in
  let wf3 := Fixtures.mk_workflow "wf-3" "intake" "paused" in
  let st := (fetchWorkflows srv initial []).1 in
  let last_one := setWorkflows [wf2] st in
  render (λ s, s) (delete_and_settle srv true "wf-2" st []).1.1
    = Table [show wf1; show wf3]
  ∧ render (λ s, s) (delete_and_settle srv true "wf-2" last_one []).1.1
    = Throws (ReferenceError "DocumentTextIcon").
Proof.
  intros srv show wf1 wf2 wf3 st last_one.
  assert (NoDup (row_key <$> (show <$> [wf1; wf2; wf3]))) as Hkeys3
    by (apply (bool_decide_unpack _); vm_compute; exact I).
  assert (NoDup (row_key <$> [show wf2])) as Hkeys1
    by (apply (bool_decide_unpack _); vm_compute; exact I).
  assert (show wf2 ∈ show <$> [wf1; wf2; wf3]) as Hin3
    by apply list_elem_of_further, list_elem_of_here.
  assert (show wf2 ∈ [show wf2]) as Hin1 by apply list_elem_of_here.
  split.
  - exact (proj2 (proj2 (delete_button_removes_its_row (λ s, s) srv st []
                           (show <$> [wf1; wf2; wf3]) (show wf2) JNull
                           eq_refl Hkeys3 Hin3 eq_refl))).
  - exact (proj2 (proj2 (delete_button_removes_its_row (λ s, s) srv
                           last_one [] [show wf2] (show wf2) JNull
                           eq_refl Hkeys1 Hin1 eq_refl))).
Defined.

End WorkflowsMoreFacts.

(* ===================================================================== *)
(** ** Facts about setup.sh *)
(* ===================================================================== *)

Module SetupFacts.
Import Setup.

(** Case analysis along the script: the six checks first, each closed as
    soon as it fails, then what the rest of the script looks at. *)
Ltac walk m tac :=
  destruct m as [readme server client py node npm env cp pip nm npmok
                 docker compose];
  destruct readme; [|tac];
  destruct server; [|tac];
  destruct client; [|tac];
  destruct py; [|tac];
  destruct node; [|tac];
  destruct npm; [|tac];
  destruct env; destruct cp as [|cp];
  destruct pip, nm, npmok, docker, compose; tac.

Ltac not_in H :=
  exfalso; repeat (apply elem_of_cons in H as [H|H]; [discriminate H|]);
  by apply elem_of_nil in H.

Ltac is_in := repeat first [apply list_elem_of_here | apply list_elem_of_further].

(** X14: the checks come before any change: run outside the project root,
    or without [python3], [node] or [npm], the script exits with status 1
    without having run a single command, and the last line it prints is an
    [[ERROR]] line. *)
Theorem setup_checks_before_acting (m : machine) :
  in_project_root m && has_tools m = false →
  (run m).2 = 1
  ∧ commands (run m).1 = []
  ∧ ∃ line, last (output (run m).1) = Some line
            ∧ String.prefix (RED +:+ "[ERROR]") line = true.
Proof.
  walk m ltac:(intros Hbad; cbn in Hbad;
               first [ discriminate Hbad
                     | split; [vm_compute; reflexivity|];
                       split; [vm_compute; reflexivity|];
                       eexists; split; vm_compute; reflexivity ]).
Qed.

Lemma setup_checks_before_acting_witness :
  let m := {| has_readme := true; has_server_dir := true;
              has_client_dir := true; has_python3 := true;
              has_node := false; has_npm := true; has_env := false;
              cp_status := 0; pip_ok := true; has_node_modules := false;
              npm_ok := true; has_docker := false;
              has_docker_compose := false |} in
  (run m).2 = 1 ∧ commands (run m).1 = [].
Proof.
  intros m.
  destruct (setup_checks_before_acting m eq_refl) as (Hexit & Hnone & _).
  by split.
Defined.

(** X15: the script never overwrites an existing [server/.env] and never
    reinstalls over an existing [client/node_modules]: the copy is run
    only when there is no [.env], [npm install] only when there is no
    [node_modules]; and it runs each of its three commands at most once,
    in the order copy, pip, npm. *)
Theorem setup_keeps_what_exists (m : machine) :
  (CopyEnv ∈ commands (run m).1 → has_env m = false)
  ∧ (NpmInstall ∈ commands (run m).1 → has_node_modules m = false)
  ∧ commands (run m).1 `sublist_of` [CopyEnv; PipInstall; NpmInstall].
Proof.
  walk m ltac:(split; [|split];
               [ intros Hin; vm_compute in Hin;
                 first [reflexivity | not_in Hin]
               | intros Hin; vm_compute in Hin;
                 first [reflexivity | not_in Hin]
               | vm_compute;
                 repeat first [apply sublist_nil | apply sublist_skip
                              | apply sublist_cons] ]).
Qed.

Lemma setup_keeps_what_exists_witness :
  has_env ready = false ∧ has_node_modules ready = false.
Proof.
  destruct (setup_keeps_what_exists ready) as (Hcp & Hnpm & _).
  split; [apply Hcp|apply Hnpm]; vm_compute; is_in.
Defined.

(** X16: the exit status of the script.  It is 1 when the script is run
    outside the project root or one of the three tools is missing; else,
    when there is no [.env] and [cp] fails, it is the status [cp] ended
    with; else 1 when there is no [node_modules] and [npm install] fails;
    else 0.  So the script ends with status 0 exactly when it is run in
    the project root with the three tools present, the [.env] file exists
    or the copy ends with status 0, and [node_modules] exists or
    [npm install] succeeds.  A failing [pip3 install] and a missing Docker
    only change what is printed.  "Setup complete!" is printed exactly on
    status 0. *)
Theorem setup_exit_status (m : machine) :
  (run m).2 =
    (if negb (in_project_root m && has_tools m) then 1
     else if negb (has_env m) && negb (Nat.eqb (cp_status m) 0)
          then cp_status m
     else if negb (has_node_modules m) && negb (npm_ok m) then 1
     else 0)
  ∧ ((run m).2 = 0 ↔
       in_project_root m && has_tools m
       && (has_env m || Nat.eqb (cp_status m) 0)
       && (has_node_modules m || npm_ok m) = true)
  ∧ ((GREEN +:+ "[SUCCESS]" +:+ NC +:+ " Setup complete! 🎉")
       ∈ output (run m).1 ↔ (run m).2 = 0).
Proof.
  walk m ltac:(split; [vm_compute; reflexivity|];
               split;
               [ vm_compute; split; intros Hz;
                 first [reflexivity | discriminate Hz]
               | vm_compute; split;
                 [ intros Hin; first [reflexivity | not_in Hin]
                 | intros Hz; first [discriminate Hz | is_in] ] ]).
Qed.

End SetupFacts.

(* ===================================================================== *)
(** ** Facts about the engine *)
(* ===================================================================== *)

Module EngineFacts.
Import Js Engine.

(** The scenario of the design document runs as it says: the urgent input
    pauses at the human review with one pending interaction, and the
    answer resumes the execution to its end. *)
Example scenario_pauses_then_completes :
  status <$> (executions (Scenario.paused_system Scenario.always_up) !! 0)
    = Some Paused
  ∧ i_status <$> (interactions (Scenario.paused_system Scenario.always_up) !! 0)
    = Some IPending
  ∧ status <$> (executions (Scenario.finished_system Scenario.always_up) !! 0)
    = Some Completed
  ∧ cp_sequence <$> checkpoints (Scenario.finished_system Scenario.flaky)
    = [1; 2; 3; 4; 5].
Proof. vm_compute. done. Qed.

(** *** Counting commits *)

Lemma committed_cons (e : nat) (ev : event) (t : list event) :
  committed e (ev :: t) =
    (if is_commit e ev then S (committed e t) else committed e t).
Proof. unfold committed. cbn. by destruct (is_commit e ev). Qed.

Lemma committed_app (e : nat) (t1 t2 : list event) :
  committed e (t1 ++ t2) = committed e t1 + committed e t2.
Proof. unfold committed. by rewrite List.filter_app, length_app. Qed.

Lemma is_commit_true (e : nat) (ev : event) :
  is_commit e ev = true ↔ ∃ n, ev = EvCommit e n.
Proof.
  destruct ev; cbn; try (split; [discriminate|by intros [? ?]]).
  rewrite bool_decide_eq_true. split; [intros ->; eauto|by intros [? [= ->]]].
Qed.

(** In an orderly record the commits of an execution are numbered 1, 2,
    ... : the checkpoint [n] is there as soon as [n] are committed. *)
Lemma trace_ok_commit_present (e n : nat) (t : list event) :
  trace_ok t → 0 < n → n ≤ committed e t → EvCommit e n ∈ t.
Proof.
  induction t as [|ev t IH]; [cbn; lia|].
  intros [Hev Hok] Hpos Hle. rewrite committed_cons in Hle.
  destruct (is_commit e ev) eqn:Hc.
  - apply is_commit_true in Hc as [m ->]. destruct Hev as [-> _].
    destruct (decide (n = S (committed e t))) as [->|Hne].
    + apply list_elem_of_here.
    + apply list_elem_of_further, IH; [done|done|lia].
  - by apply list_elem_of_further, IH.
Qed.

Lemma trace_ok_app (t1 t2 : list event) : trace_ok (t1 ++ t2) → trace_ok t2.
Proof. induction t1 as [|ev t1 IH]; [done|]. intros [_ H]. by apply IH. Qed.

Lemma trace_ok_at (later earlier : list event) (ev : event) :
  trace_ok (later ++ ev :: earlier) → event_ok ev earlier.
Proof. intros H. apply trace_ok_app in H. by destruct H. Qed.

(** After checkpoint [n] of an execution is committed, no step of that
    execution is begun or committed under a number up to [n]. *)
Lemma trace_ok_no_replay (e n : nat) (later earlier : list event) :
  trace_ok (later ++ EvCommit e n :: earlier) →
  ∀ m, m ≤ n →
    (EvCommit e m ∉ later) ∧ (∀ node, EvInvoke e m node ∉ later).
Proof.
  intros Hok m Hm.
  assert (∀ ev l1 l2, later = l1 ++ ev :: l2 →
            n ≤ committed e (l2 ++ EvCommit e n :: earlier)) as Hcount.
  { intros ev l1 l2 ->. rewrite <- app_assoc in Hok. cbn in Hok.
    apply trace_ok_app in Hok as [_ Hok].
    rewrite committed_app, committed_cons. cbn. rewrite bool_decide_eq_true_2 by done.
    apply trace_ok_app in Hok as [[-> _] _]. lia. }
  split; [|intros node]; intros (l1 & l2 & Hsplit)%list_elem_of_split.
  - specialize (Hcount _ _ _ Hsplit). subst later.
    rewrite <- app_assoc in Hok.
    apply (trace_ok_at l1 (l2 ++ EvCommit e n :: earlier)) in Hok as [Heq _].
    lia.
  - specialize (Hcount _ _ _ Hsplit). subst later.
    rewrite <- app_assoc in Hok.
    apply (trace_ok_at l1 (l2 ++ EvCommit e n :: earlier)) in Hok.
    cbn in Hok. lia.
Qed.


(** *** The checkpoint log *)

Lemma max_list_seq (a k : nat) :
  max_list (seq a k) = match k with 0 => 0 | S _ => a + k - 1 end.
Proof.
  revert a. induction k as [|k IH]; intros a; [done|].
  cbn [seq max_list_with]. rewrite IH. unfold id. destruct k; lia.
Qed.

Lemma latest_sequence_numbered (e k : nat) (cps : list checkpoint) :
  cp_sequence <$> log_of e cps = seq 1 k → latest_sequence e cps = k.
Proof.
  intros H. unfold latest_sequence. rewrite H, max_list_seq. destruct k; lia.
Qed.

Lemma log_of_app (e : nat) (cps : list checkpoint) (cp : checkpoint) :
  log_of e (cps ++ [cp]) =
    if decide (cp_execution cp = e) then log_of e cps ++ [cp]
    else log_of e cps.
Proof.
  unfold log_of. rewrite filter_app, filter_cons, filter_nil.
  case_decide; [done|by rewrite app_nil_r].
Qed.

Section Protocol.
Context (definition : string → node).
Context (execute : node_type → gmap string json → gmap string json → nat
                   → handler_outcome).
Context (store_reachable : nat → bool).

Abbreviation step := (Engine.step definition execute store_reachable).
Abbreviation handle := (Engine.handle definition execute store_reachable).
Abbreviation handle_all := (Engine.handle_all definition execute store_reachable).
Abbreviation reachable := (Engine.reachable definition execute store_reachable).
Abbreviation commit := (Engine.commit store_reachable).

(** Reads a field of an updated system. *)
Ltac fields :=
  cbn [trace checkpoints executions interactions clock
       log at_time put_execution put_interaction append_checkpoint].

(** Unfolds one request down to the field updates it makes. *)
Ltac open_request :=
  unfold Engine.handle, Engine.step, Engine.start, Engine.cancel,
    Engine.respond, Engine.create_execution, Engine.commit,
    Engine.transition;
  repeat match goal with
         | |- context [match ?x with _ => _ end] =>
             lazymatch x with
             | context [match _ with _ => _ end] => fail
             | _ => destruct x eqn:?
             end
         | |- context [if ?b then _ else _] => destruct b eqn:?
         end;
  cbn [snd fst trace checkpoints executions interactions clock
       log at_time put_execution put_interaction append_checkpoint].

Lemma numbered_latest (s : system) (e : nat) :
  numbered s → latest_sequence e (checkpoints s) = committed e (trace s).
Proof. intros H. apply latest_sequence_numbered, H. Qed.

(** Committing the next checkpoint of [e] keeps the log numbered. *)
Lemma numbered_commit (s : system) (e : nat) (cp : checkpoint)
    (cps : list checkpoint) (t : list event) :
  numbered s →
  cp_execution cp = e →
  cp_sequence cp = S (committed e (trace s)) →
  cps = checkpoints s ++ [cp] →
  (∀ e', committed e' t =
           if decide (e = e') then S (committed e' (trace s))
           else committed e' (trace s)) →
  ∀ e', cp_sequence <$> log_of e' cps = seq 1 (committed e' t).
Proof.
  intros Hnum He Hseq -> Ht e'. rewrite Ht, log_of_app, He.
  case_decide as Hee; [subst e'|apply Hnum].
  rewrite fmap_app, seq_S, (Hnum e). cbn. by rewrite Hseq.
Qed.

Lemma handle_keeps_order (r : request) (s : system) :
  trace_ok (trace s) → numbered s →
  trace_ok (trace (handle r s)) ∧ numbered (handle r s).
Proof.
  intros Hok Hnum. destruct r as [wf entry input|e|e|e i payload|e].
  all: open_request.
  all: try (split; [exact Hok|exact Hnum]).
  all: rewrite ?(numbered_latest s e Hnum).
  all: split;
    [ cbn; rewrite ?committed_cons; cbn;
      rewrite ?bool_decide_eq_true_2 by done; eauto 10
    | try (intros e'; cbn; rewrite ?committed_cons; cbn; apply Hnum) ].
  all: intros e'; eapply (numbered_commit s e _ _ _ Hnum).
  all: only 3, 7, 11: (cbn; reflexivity).
  all: try reflexivity.
  all: intros e''; fields; rewrite !committed_cons; cbn [is_commit].
  all: case_bool_decide; case_decide; congruence.
Qed.

Lemma reachable_ordered (s : system) :
  reachable s → trace_ok (trace s) ∧ numbered s.
Proof.
  induction 1 as [|r s _ [Hok Hnum]]; [by split|].
  by apply handle_keeps_order.
Qed.


Lemma handle_appends (r : request) (s : system) :
  checkpoints s `prefix_of` checkpoints (handle r s).
Proof.
  destruct r; open_request; try done; by apply prefix_app_r.
Qed.

(** *** The interaction broker *)

Lemma fresh_execution (s : system) :
  executions s !! fresh (dom (executions s)) = None.
Proof. apply not_elem_of_dom, is_fresh. Qed.

Lemma fresh_interaction (s : system) :
  interactions s !! fresh (dom (interactions s)) = None.
Proof. apply not_elem_of_dom, is_fresh. Qed.

Lemma handle_keeps_broker (r : request) (s : system) :
  one_pending s → pending_while_paused s → interactions_owned s →
  one_pending (handle r s) ∧ pending_while_paused (handle r s)
  ∧ interactions_owned (handle r s).
Proof.
  intros Hone Hwait Hown.
  pose proof (fresh_execution s) as Hfe.
  pose proof (fresh_interaction s) as Hfi.
  destruct r as [wf entry input|e|e|e i payload|e].
  all: open_request.
  all: try (split; [exact Hone|split; [exact Hwait|exact Hown]]).
  all: repeat match goal with
              | H : bool_decide _ = true |- _ => apply bool_decide_eq_true in H
              | H : bool_decide _ = false |- _ => apply bool_decide_eq_false in H
              end.
  all: unfold one_pending, pending_while_paused, interactions_owned,
         pending_for in *; fields.
  all: split; [|split].
  all: intros.
  all: repeat match goal with
              | H : <[_ := _]> _ !! _ = Some _ |- _ =>
                  rewrite lookup_insert in H; case_decide; simplify_eq/=
              | |- context [<[_ := _]> _ !! _] =>
                  rewrite lookup_insert; case_decide; simplify_eq/=
              end.
  all: try done.
  all: try (by left). 
  all: try (by right).
  all: try (case_decide; [by eexists|done || by eapply Hown]).
  all: try (by eapply Hown).
  all: try (by eapply Hone).
  all: try (by eapply Hwait).
  all: try (exfalso;
            match goal with
            | Hex : executions _ !! ?e = Some ?ex,
              Hi : interactions _ !! ?i = Some ?it |- _ =>
                let H := fresh in
                assert (status ex = Paused ∨ status ex = Cancelled) as H
                  by (eapply (Hwait e ex i it Hex Hi); split; intuition congruence);
                destruct H; congruence
            end).
  all: try (exfalso; intuition congruence).
  all: try (destruct (decide _); eauto).
  all: exfalso.
  all: try match goal with
           | Hne : ?i ≠ ?j, Hi : interactions _ !! ?i = Some _,
             Hj : interactions _ !! ?j = Some _ |- _ =>
               apply Hne; eapply (Hone _ i j _ _ Hi Hj);
               split; intuition congruence
           end.
  match goal with
  | Hi : interactions _ !! _ = Some ?it, Hp : i_execution ?it = _ ∧ _ |- _ =>
      destruct (Hown _ _ Hi) as [x Hx]; destruct Hp as [He _];
      rewrite He in Hx; congruence
  end.
Qed.

Lemma reachable_broker (s : system) :
  reachable s → one_pending s ∧ pending_while_paused s ∧ interactions_owned s.
Proof.
  induction 1 as [|r s _ (Hone & Hwait & Hown)].
  - repeat split; intros *; cbn; by rewrite ?lookup_empty.
  - by apply handle_keeps_broker.
Qed.


(** *** One step, seen from the store *)

(** A step that succeeds goes through a system [s_c] in which its
    checkpoint, numbered one above the latest, is already in the log
    while the execution is still running at the node it was at; the
    result of the step is the transition made from [s_c], and the
    transition leaves the log alone. *)
Lemma step_ok_through_commit (e : nat) (s : system) :
  (step e s).1 = Ok →
  ∃ ex n r now s_c,
    executions s !! e = Some ex
    ∧ status ex = Running ∧ current_node ex = Some n
    ∧ invoke execute (definition n) (state ex)
             (max_retries (n_retry (definition n))) 0 (clock s)
        = (Returned r, now)
    ∧ checkpoints s_c =
        checkpoints s ++
          [{| cp_execution := e;
              cp_sequence := S (latest_sequence e (checkpoints s));
              cp_node := n;
              cp_snapshot := merge (state_delta r) (state ex);
              cp_timestamp := now |}]
    ∧ (∃ ex', executions s_c !! e = Some ex'
              ∧ status ex' = Running ∧ current_node ex' = Some n
              ∧ (step e s).2 =
                  transition e (S (latest_sequence e (checkpoints s))) n r
                             ex' s_c)
    ∧ checkpoints (step e s).2 = checkpoints s_c.
Proof.
  unfold Engine.step.
  destruct (executions s !! e) as [ex|] eqn:Hex; [|discriminate].
  destruct (status ex) eqn:Hst; try discriminate.
  destruct (current_node ex) as [n|] eqn:Hn; [|discriminate].
  destruct (invoke _ _ _ _ _ _) as [[r|err] now] eqn:Hinv; [|discriminate].
  unfold Engine.commit. fields.
  destruct (store_reachable now); [|discriminate].
  intros _. cbn [fst snd].
  match goal with
  | |- context [transition _ _ _ _ _ ?sc] => exists ex, n, r, now, sc
  end.
  do 4 (split; [done|]). split; [reflexivity|]. split.
  - eexists. fields. rewrite lookup_insert_eq.
    split; [reflexivity|]. by repeat split.
  - unfold Engine.transition.
    by destruct (interrupt_request r), (next_node_id r).
Qed.

(** A step that does not succeed commits nothing and moves nothing: the
    execution keeps its node and its state, and its status changes only
    when the handler failed for good. *)
Lemma step_err_no_transition (e : nat) (s : system) (ex : execution) :
  (step e s).1 ≠ Ok →
  executions s !! e = Some ex →
  checkpoints (step e s).2 = checkpoints s
  ∧ ∃ ex', executions (step e s).2 !! e = Some ex'
           ∧ current_node ex' = current_node ex ∧ state ex' = state ex
           ∧ (status ex' = status ex ∨ status ex' = Failed).
Proof.
  intros Herr Hex. revert Herr. unfold Engine.step. rewrite Hex.
  destruct (status ex) eqn:Hst; try (intros _; split; [done|]; eauto 10).
  destruct (current_node ex) as [n|] eqn:Hn;
    [|intros _; split; [done|]; eauto 10].
  destruct (invoke _ _ _ _ _ _) as [[r|err] now] eqn:Hinv.
  - unfold Engine.commit. fields.
    destruct (store_reachable now); [done|].
    intros _. cbn [fst snd]. fields. split; [done|]. eauto 10.
  - intros _. cbn [fst snd]. fields. split; [done|].
    rewrite lookup_insert_eq. eexists. split; [done|]. cbn. eauto.
Qed.

(** *** A cancelled execution stays as it is *)

Lemma cancelled_is_final (r : request) (s : system) (e : nat)
    (ex : execution) :
  executions s !! e = Some ex → status ex = Cancelled →
  executions (handle r s) !! e = Some ex
  ∧ log_of e (checkpoints (handle r s)) = log_of e (checkpoints s)
  ∧ (∀ n, EvCommit e n ∈ trace (handle r s) → EvCommit e n ∈ trace s).
Proof.
  intros Hex Hst. pose proof (fresh_execution s) as Hfe.
  destruct r as [wf entry input|e'|e'|e' i payload|e'].
  all: try (destruct (decide (e' = e)) as [->|Hne]).
  all: open_request.
  all: repeat match goal with
              | H : bool_decide _ = true |- _ => apply bool_decide_eq_true in H
              | H : bool_decide _ = false |- _ => apply bool_decide_eq_false in H
              | H : _ || _ = false |- _ => apply orb_false_iff in H as [? ?]
              end.
  all: simplify_eq.
  all: try done.
  all: try congruence.
  all: rewrite ?log_of_app; cbn [cp_execution]; rewrite ?decide_False by done.
  all: rewrite ?lookup_insert_ne by congruence.
  all: try congruence.
  all: try match goal with
           | H : ¬ (status _ ≠ Paused) |- _ => exfalso; apply H; congruence
           end.
  all: split; [done|split; [done|]].
  all: intros k; rewrite !elem_of_cons; intros; destruct_or?; by simplify_eq.
Qed.

Lemma handle_all_cons (r : request) (rs : list request) (s : system) :
  handle_all (r :: rs) s = handle_all rs (handle r s).
Proof. reflexivity. Qed.

Lemma cancelled_stays (rs : list request) (s : system) (e : nat)
    (ex : execution) :
  executions s !! e = Some ex → status ex = Cancelled →
  executions (handle_all rs s) !! e = Some ex
  ∧ log_of e (checkpoints (handle_all rs s)) = log_of e (checkpoints s)
  ∧ (∀ n, EvCommit e n ∈ trace (handle_all rs s) → EvCommit e n ∈ trace s).
Proof.
  revert s. induction rs as [|r rs IH]; intros s Hex Hst; [done|].
  rewrite handle_all_cons.
  destruct (cancelled_is_final r s e ex Hex Hst) as (Hex' & Hlog & Htr).
  destruct (IH _ Hex' Hst) as (Hex'' & Hlog' & Htr').
  split; [done|]. split; [by rewrite Hlog'|]. intros n Hin. by apply Htr, Htr'.
Qed.

Lemma respond_conflict (e i : nat) (payload : gmap string json)
    (s : system) :
  (∃ it, interactions s !! i = Some it ∧ i_status it = IResponded)
  ∨ (∃ ex, executions s !! e = Some ex ∧ status ex ≠ Paused) →
  respond e i payload s = (Err InteractionConflictError, s).
Proof.
  unfold Engine.respond. intros [(it & -> & Hit)|(ex & -> & Hex)].
  - by rewrite bool_decide_eq_true_2.
  - rewrite (bool_decide_eq_true_2 _ Hex). by rewrite orb_true_r.
Qed.

Lemma reachable_run (fuel e : nat) (s : system) :
  reachable s →
  reachable (Engine.run definition execute store_reachable fuel e s).
Proof.
  revert s. induction fuel as [|fuel IH]; intros s Hs; [done|]. cbn.
  destruct (executions s !! e); [|done]. case_bool_decide; [|done].
  apply IH. by apply (reachable_handle _ _ _ (Step e)).
Qed.


(** C1: for every execution [e] of a system the engine can reach,
    - the checkpoints of [e] are numbered 1, 2, ...: each sequence number
      is the previous one plus 1, and the log only grows at its end;
    - a checkpoint is committed under the number that follows the
      checkpoints committed before it, and once it is committed no step
      is begun or committed again under its number or a lower one (a
      committed checkpoint is never replayed);
    - the execution is moved on (to the next node, to paused or to
      completed) only right after the checkpoint of that step was
      committed;
    - step N+1 is begun only after checkpoint N was committed;
    - seen from the store, a step that succeeds passes through a system
      that already holds its checkpoint while the execution is still
      running at the old node, and a step that does not succeed commits
      and moves nothing. *)
Theorem checkpoint_committed_before_transition (s : system) (e : nat) :
  reachable s →
  cp_sequence <$> log_of e (checkpoints s)
    = seq 1 (length (log_of e (checkpoints s)))
  ∧ (∀ r, checkpoints s `prefix_of` checkpoints (handle r s))
  ∧ (∀ later n earlier,
       trace s = later ++ EvCommit e n :: earlier →
       n = S (committed e earlier)
       ∧ ∀ m, m ≤ n →
           (EvCommit e m ∉ later) ∧ (∀ node, EvInvoke e m node ∉ later))
  ∧ (∀ later n to earlier,
       trace s = later ++ EvTransition e n to :: earlier →
       ∃ rest, earlier = EvCommit e n :: rest)
  ∧ (∀ later n node earlier,
       trace s = later ++ EvInvoke e (S n) node :: earlier →
       n = committed e earlier ∧ (n = 0 ∨ EvCommit e n ∈ earlier))
  ∧ ((step e s).1 = Ok →
       ∃ ex n r now s_c,
         executions s !! e = Some ex
         ∧ status ex = Running ∧ current_node ex = Some n
         ∧ invoke execute (definition n) (state ex)
                  (max_retries (n_retry (definition n))) 0 (clock s)
             = (Returned r, now)
         ∧ checkpoints s_c =
             checkpoints s ++
               [{| cp_execution := e;
                   cp_sequence := S (latest_sequence e (checkpoints s));
                   cp_node := n;
                   cp_snapshot := merge (state_delta r) (state ex);
                   cp_timestamp := now |}]
         ∧ (∃ ex', executions s_c !! e = Some ex'
                   ∧ status ex' = Running ∧ current_node ex' = Some n
                   ∧ (step e s).2 =
                       transition e (S (latest_sequence e (checkpoints s)))
                                  n r ex' s_c)
         ∧ checkpoints (step e s).2 = checkpoints s_c)
  ∧ (∀ ex, (step e s).1 ≠ Ok → executions s !! e = Some ex →
       checkpoints (step e s).2 = checkpoints s
       ∧ ∃ ex', executions (step e s).2 !! e = Some ex'
                ∧ current_node ex' = current_node ex
                ∧ state ex' = state ex
                ∧ (status ex' = status ex ∨ status ex' = Failed)).
Proof.
  intros Hs. destruct (reachable_ordered s Hs) as [Hok Hnum].
  split; [|split; [|split; [|split; [|split; [|split]]]]].
  - rewrite (Hnum e).
    by rewrite <- (length_fmap cp_sequence), (Hnum e), length_seq.
  - intros r. apply handle_appends.
  - intros later n earlier Ht. rewrite Ht in Hok. split.
    + by destruct (trace_ok_at _ _ _ Hok) as [-> _].
    + by apply (trace_ok_no_replay e n later earlier).
  - intros later n to earlier Ht. rewrite Ht in Hok.
    exact (trace_ok_at _ _ _ Hok).
  - intros later n node earlier Ht. rewrite Ht in Hok.
    pose proof (trace_ok_at _ _ _ Hok) as Hev. cbn in Hev.
    injection Hev as ->. split; [done|].
    destruct (committed e earlier) as [|k] eqn:Hk; [by left|right].
    apply trace_ok_commit_present; [|lia|lia].
    apply trace_ok_app in Hok. by destruct Hok.
  - apply step_ok_through_commit.
  - intros ex. apply step_err_no_transition.
Qed.

(** C2: in every system the engine can reach, at most one interaction of
    any execution is pending; and in any system, a [respond] call on an
    interaction that is already responded, or on an execution that is not
    paused, fails with [InteractionConflictError] and leaves the system,
    and with it the execution state, unchanged. *)
Theorem single_pending_interaction_and_conflicts :
  (∀ s, reachable s →
     ∀ e i j it jt,
       interactions s !! i = Some it → interactions s !! j = Some jt →
       pending_for e it → pending_for e jt → i = j)
  ∧ (∀ s e i payload,
       (∃ it, interactions s !! i = Some it ∧ i_status it = IResponded)
       ∨ (∃ ex, executions s !! e = Some ex ∧ status ex ≠ Paused) →
       respond e i payload s = (Err InteractionConflictError, s)).
Proof.
  split.
  - intros s Hs. by destruct (reachable_broker s Hs) as (Hone & _ & _).
  - intros s e i payload. apply respond_conflict.
Qed.

(** C3: cancelling a paused execution succeeds and makes it cancelled;
    from then on, whatever is asked of the engine, the execution stays
    cancelled with the state it had, no checkpoint of it is written, and
    every [respond] call on it fails (with [InteractionConflictError]),
    changing nothing. *)
Theorem cancel_paused_is_final (s : system) (e : nat) (ex : execution) :
  executions s !! e = Some ex → status ex = Paused →
  (cancel e s).1 = Ok
  ∧ checkpoints (cancel e s).2 = checkpoints s
  ∧ ∀ rs, let s' := handle_all rs (cancel e s).2 in
      status <$> (executions s' !! e) = Some Cancelled
      ∧ state <$> (executions s' !! e) = Some (state ex)
      ∧ log_of e (checkpoints s') = log_of e (checkpoints s)
      ∧ (∀ n, EvCommit e n ∈ trace s' → EvCommit e n ∈ trace s)
      ∧ ∀ i payload,
          respond e i payload s' = (Err InteractionConflictError, s').
Proof.
  intros Hex Hst. unfold Engine.cancel. rewrite Hex, Hst. cbn [fst snd].
  split; [done|]. split; [done|]. intros rs.
  set (ex' := with_status Cancelled (clock s) ex).
  destruct (cancelled_stays rs
              (log (EvCancelled e) (put_execution e ex' s)) e ex')
    as (Hex' & Hlog & Htr).
  { fields. apply lookup_insert_eq. }
  { done. }
  rewrite Hex'. repeat split.
  - exact Hlog.
  - intros n Hin. apply Htr in Hin. fields.
    apply elem_of_cons in Hin as [Hin|Hin]; [discriminate Hin|exact Hin].
  - intros i payload. apply respond_conflict. right. by exists ex'.
Qed.

End Protocol.

(** *** The theorems on the scenario of the design document *)

Lemma scenario_paused_reachable :
  reachable Scenario.definition Scenario.execute Scenario.always_up
    (Scenario.paused_system Scenario.always_up).
Proof.
  apply reachable_run.
  apply (reachable_handle _ _ _ (Start 0)).
  apply (reachable_handle _ _ _ (Create "wf-1" "start" ∅)).
  apply reachable_init.
Qed.

Lemma scenario_finished_reachable :
  reachable Scenario.definition Scenario.execute Scenario.always_up
    (Scenario.finished_system Scenario.always_up).
Proof.
  apply reachable_run.
  apply (reachable_handle _ _ _ (Respond 0 0 Scenario.approved)).
  apply scenario_paused_reachable.
Qed.

Lemma checkpoint_committed_before_transition_witness :
  let s := Scenario.paused_system Scenario.always_up in
  cp_sequence <$> log_of 0 (checkpoints s) = [1; 2; 3; 4]
  ∧ ∀ later n to earlier,
      trace s = later ++ EvTransition 0 n to :: earlier →
      ∃ rest, earlier = EvCommit 0 n :: rest.
Proof.
  intros s.
  destruct (checkpoint_committed_before_transition
              Scenario.definition Scenario.execute Scenario.always_up
              s 0 scenario_paused_reachable)
    as (Hnum & _ & _ & Htr & _).
  split; [|exact Htr]. rewrite Hnum. vm_compute. reflexivity.
Defined.

Lemma single_pending_interaction_and_conflicts_witness :
  let s := Scenario.finished_system Scenario.always_up in
  respond 0 0 Scenario.approved s = (Err InteractionConflictError, s)
  ∧ ∀ i j it jt,
      interactions s !! i = Some it → interactions s !! j = Some jt →
      pending_for 0 it → pending_for 0 jt → i = j.
Proof.
  intros s.
  destruct (single_pending_interaction_and_conflicts
              Scenario.definition Scenario.execute Scenario.always_up)
    as [Hone Hconflict].
  split.
  - apply Hconflict. left. eexists.
    split; [vm_compute; reflexivity|reflexivity].
  - apply Hone. exact scenario_finished_reachable.
Defined.

Lemma cancel_paused_is_final_witness :
  let s := Scenario.paused_system Scenario.always_up in
  let s' := handle Scenario.definition Scenario.execute Scenario.always_up
              (Step 0) (cancel 0 s).2 in
  (cancel 0 s).1 = Ok
  ∧ status <$> (executions s' !! 0) = Some Cancelled
  ∧ log_of 0 (checkpoints s') = log_of 0 (checkpoints s)
  ∧ respond 0 0 Scenario.approved s' = (Err InteractionConflictError, s').
Proof.
  intros s s'.
  assert (is_Some (executions s !! 0)) as [ex Hex] by (vm_compute; eauto).
  assert (status ex = Paused) as Hst.
  { apply (inj Some). rewrite <- (fmap_Some_2 status _ _ Hex).
    vm_compute. reflexivity. }
  destruct (cancel_paused_is_final
              Scenario.definition Scenario.execute Scenario.always_up
              s 0 ex Hex Hst) as (Hok & _ & Hafter).
  destruct (Hafter [Step 0]) as (Hstatus & _ & Hlog & _ & Hrespond).
  split; [exact Hok|]. split; [exact Hstatus|]. split; [exact Hlog|].
  apply Hrespond.
Defined.

End EngineFacts.
